(** * Streaming chat turns over the Leap SDK bridge

    A shallow embedding of the four layers of the application:

    - [LeapSDKModule]: the Android bridge module (Kotlin), which owns the
      model runner, the conversation and the generation job, and turns the
      vendor's response flow into [onChunk]/[onComplete]/[onError] events
      and one promise settlement;
    - [LeapSDKWrapper]: the JavaScript wrapper, which subscribes the
      caller's callbacks to the event emitter around one bridge call;
    - [LeapLiquidAIService]: the singleton service with its three flags;
    - [ChatScreen]: the message list and [handleSend].

    The vendor SDK is opaque: what it returns or throws is an explicit
    argument of the operation that calls it, and what its response flow
    does next is a [Signal] fed to the job that collects it. *)

From stdpp Require Import base list strings option pretty.
From Stdlib Require Import Lia.

(** ** The vendor SDK surface ([ai.liquid.leap]) *)

Module Vendor.

(** [MessageResponse]: the elements of the flow returned by
    [Conversation.generateResponse]. [ReasoningChunk] carries the value of
    [response.toString()], the only thing the bridge reads from it. Every
    other variant is [Other]. *)
Inductive MessageResponse : Type :=
| Chunk (text : string)
| ReasoningChunk (toString : string)
| Other.

Record ModelRunner : Type := { bundle : string }.

(** A conversation handle; [history] is the property read by [getHistory]. *)
Record Conversation : Type := { history : list string }.

(** What [LeapClient.loadModel(modelPath)] does. *)
Inductive LoadResult : Type :=
| Loaded (runner : ModelRunner)
| LeapModelLoadingException (message : string)
| LoadException (message : string).

(** What [runner.createConversation()] does. *)
Inductive CreateResult : Type :=
| Created (conversation : Conversation)
| CreateException (message : string).

(** The cause a flow ends with, when it does not end normally. *)
Inductive Throwable : Type :=
| Exception (message : string)
| CancellationException (message : string).

Definition message (e : Throwable) : string :=
  match e with
  | Exception m => m
  | CancellationException m => m
  end.

End Vendor.

(** ** What crosses the bridge *)

Inductive ChunkType : Type := chunk | reasoning.

Record ChunkEvent : Type := { chunk_text : string; chunk_type : ChunkType }.
Record CompleteEvent : Type := { complete_text : string }.
Record ErrorEvent : Type := { error : string }.

(** An event emitted on the device event emitter, by name. *)
Inductive Event : Type :=
| onChunk (e : ChunkEvent)
| onComplete (e : CompleteEvent)
| onError (e : ErrorEvent).

(** How a bridge promise is settled by a method that settles it before it
    returns: resolved with a value of the type the wrapper declares for the
    method, or rejected. *)
Inductive Settled (A : Type) : Type :=
| Resolved (a : A)
| Rejected (code message : string).
Arguments Resolved {A} a.
Arguments Rejected {A} code message.

(** What a bridge method or a job does to the JavaScript side, in program
    order. [promise] is the identity of the [Promise] argument of
    [generateResponse], which is resolved with a map holding [text]. *)
Inductive Effect : Type :=
| sendEvent (e : Event)
| resolve (promise : nat) (text : string)
| reject (promise : nat) (code message : string).

(** ** The bridge module ([LeapSDKModule], Kotlin) *)

Module LeapSDKModule.
Import Vendor.

(** A coroutine launched in [scope] by [generateResponse]. [Cancelling] is a
    job on which [cancel()] was called and whose body has not unwound yet. *)
Inductive JobState : Type := Active | Cancelling | Completed.

Record Job : Type := mkJob {
  input : string;
  promise : nat;
  responseBuilder : string;
  state : JobState }.

Record t : Type := mk {
  modelRunner : option ModelRunner;
  currentConversation : option Conversation;
  generationJob : option nat;
  scope : list Job }.

Definition init : t :=
  {| modelRunner := None; currentConversation := None;
     generationJob := None; scope := [] |}.

Definition set_state (s : JobState) (j : Job) : Job :=
  {| input := input j; promise := promise j;
     responseBuilder := responseBuilder j; state := s |}.

Definition append (text : string) (j : Job) : Job :=
  {| input := input j; promise := promise j;
     responseBuilder := responseBuilder j +:+ text; state := state j |}.

Definition with_jobs (m : t) (g : option nat) (js : list Job) : t :=
  {| modelRunner := modelRunner m;
     currentConversation := currentConversation m;
     generationJob := g; scope := js |}.

(** [loadModel(modelPath, promise)]. *)
Definition loadModel (modelPath : string) (r : LoadResult) (m : t)
  : t * Settled bool :=
  match r with
  | Loaded runner =>
      ({| modelRunner := Some runner;
          currentConversation := currentConversation m;
          generationJob := generationJob m; scope := scope m |},
       Resolved true)
  | LeapModelLoadingException msg =>
      (m, Rejected "MODEL_LOAD_ERROR" ("Failed to load model: " +:+ msg))
  | LoadException msg =>
      (m, Rejected "UNKNOWN_ERROR" ("Unexpected error loading model: " +:+ msg))
  end.

(** [createConversation(promise)]. *)
Definition createConversation (r : CreateResult) (m : t) : t * Settled bool :=
  match modelRunner m with
  | None => (m, Rejected "NO_MODEL" "Model not loaded. Call loadModel first.")
  | Some runner =>
      match r with
      | Created c =>
          ({| modelRunner := modelRunner m;
              currentConversation := Some c;
              generationJob := generationJob m; scope := scope m |},
           Resolved true)
      | CreateException msg =>
          (m, Rejected "CONVERSATION_ERROR"
                ("Failed to create conversation: " +:+ msg))
      end
  end.

(** [job.cancel()]: an active job starts cancelling, any other job is left
    as it is. *)
Definition cancelJob (j : Job) : Job :=
  match state j with
  | Active => set_state Cancelling j
  | _ => j
  end.

(** [generationJob?.cancel()] *)
Definition cancel (g : option nat) (js : list Job) : list Job :=
  match g with
  | Some i => alter cancelJob i js
  | None => js
  end.

(** [scope.launch { ... }]: the new job is the last child of the scope. *)
Definition launch (input : string) (promise : nat) (js : list Job)
  : nat * list Job :=
  (length js,
   js ++ [ {| input := input; promise := promise;
              responseBuilder := ""; state := Active |} ]).

(** [generateResponse(input, promise)]. *)
Definition generateResponse (input : string) (promise : nat) (m : t)
  : t * list Effect :=
  match currentConversation m with
  | None =>
      (m, [reject promise "NO_CONVERSATION"
             "No conversation created. Call createConversation first."])
  | Some conversation =>
      let js := cancel (generationJob m) (scope m) in
      let '(i, js') := launch input promise js in
      (with_jobs m (Some i) js', [])
  end.

(** The [onEach] block. *)
Definition onEach (response : MessageResponse) (j : Job) : Job * list Effect :=
  match response with
  | Chunk text =>
      (append text j,
       [sendEvent (onChunk {| chunk_text := text; chunk_type := chunk |})])
  | ReasoningChunk shown =>
      (j, [sendEvent (onChunk {| chunk_text := shown;
                                 chunk_type := reasoning |})])
  | Other => (j, [])
  end.

Definition errorMsg (cause : Throwable) : string :=
  "Error in generation: " +:+ message cause.

(** The [onCompletion] block. *)
Definition onCompletion (cause : option Throwable) (j : Job) : list Effect :=
  match cause with
  | None =>
      let fullResponse := responseBuilder j in
      [sendEvent (onComplete {| complete_text := fullResponse |});
       resolve (promise j) fullResponse]
  | Some cause =>
      [sendEvent (onError {| error := errorMsg cause |});
       reject (promise j) "GENERATION_ERROR" (errorMsg cause)]
  end.

(** The [catch] block. The operator sits downstream of [onCompletion], which
    rethrows its cause; it lets a cancellation through without running the
    block. *)
Definition catch (exception : Throwable) (j : Job) : list Effect :=
  match exception with
  | Exception _ =>
      [sendEvent (onError {| error := errorMsg exception |});
       reject (promise j) "GENERATION_ERROR" (errorMsg exception)]
  | CancellationException _ => []
  end.

(** The end of [collect()]: [onCompletion] runs, then [catch] when there is a
    cause. *)
Definition finish (cause : option Throwable) (j : Job) : Job * list Effect :=
  (set_state Completed j,
   onCompletion cause j ++
   match cause with
   | Some e => catch e j
   | None => []
   end).

(** What the vendor's flow does next in the job that collects it. *)
Inductive Signal : Type :=
| emits (response : MessageResponse)
| completes
| throws (message : string)
| unwinds (message : string).

(** One step of job [i]. An active job takes what the flow emits, or ends
    with it; a cancelling job unwinds with its cancellation exception; any
    other combination is not a step of the job. *)
Definition react (s : Signal) (j : Job) : Job * list Effect :=
  match state j, s with
  | Active, emits response => onEach response j
  | Active, completes => finish None j
  | Active, throws msg => finish (Some (Exception msg)) j
  | Cancelling, unwinds msg => finish (Some (CancellationException msg)) j
  | _, _ => (j, [])
  end.

Definition step (i : nat) (s : Signal) (m : t) : t * list Effect :=
  match scope m !! i with
  | Some j =>
      let '(j', out) := react s j in
      (with_jobs m (generationJob m) (<[i := j']> (scope m)), out)
  | None => (m, [])
  end.

(** [cancelGeneration(promise)]. [thrown] is the message of an exception
    raised inside the [try] block, before its first assignment, if one is. *)
Definition cancelGeneration (thrown : option string) (m : t)
  : t * Settled bool :=
  match thrown with
  | None =>
      (with_jobs m None (cancel (generationJob m) (scope m)), Resolved true)
  | Some msg =>
      (m, Rejected "CANCEL_ERROR" ("Failed to cancel generation: " +:+ msg))
  end.

(** [getHistory(promise)], with [thrown] as in [cancelGeneration]. The
    history is read and not copied into the array that is returned. *)
Definition getHistory (thrown : option string) (m : t)
  : Settled (list string) :=
  match thrown with
  | None =>
      match currentConversation m with
      | None => Resolved []
      | Some conversation =>
          let history := history conversation in
          let messagesArray : list string := [] in
          Resolved messagesArray
      end
  | Some msg => Rejected "HISTORY_ERROR" ("Failed to get history: " +:+ msg)
  end.

(** [cleanup(promise)], with [thrown] as in [cancelGeneration]. *)
Definition cleanup (thrown : option string) (m : t) : t * Settled bool :=
  match thrown with
  | None =>
      ({| modelRunner := None; currentConversation := None;
          generationJob := None;
          scope := cancel (generationJob m) (scope m) |},
       Resolved true)
  | Some msg =>
      (m, Rejected "CLEANUP_ERROR" ("Failed to cleanup: " +:+ msg))
  end.

(** *** Runs of the bridge module *)

(** What can happen to the module: a call of one of its methods that change
    its state, or a step of one of its jobs. *)
Inductive Call : Type :=
| LoadModel (modelPath : string) (r : LoadResult)
| CreateConversation (r : CreateResult)
| GenerateResponse (input : string) (promise : nat)
| CancelGeneration (thrown : option string)
| Cleanup (thrown : option string)
| Step (i : nat) (s : Signal).

Definition exec (m : t) (c : Call) : t * list Effect :=
  match c with
  | LoadModel modelPath r => ((loadModel modelPath r m).1, [])
  | CreateConversation r => ((createConversation r m).1, [])
  | GenerateResponse input promise => generateResponse input promise m
  | CancelGeneration thrown => ((cancelGeneration thrown m).1, [])
  | Cleanup thrown => ((cleanup thrown m).1, [])
  | Step i s => step i s m
  end.

Definition run (cs : list Call) : t := foldl (fun m c => (exec m c).1) init cs.

(** Job [i] is in flight: it was launched, and neither cancelled nor done. *)
Definition inFlight (m : t) (i : nat) : Prop :=
  exists j, scope m !! i = Some j /\ state j = Active.

(** The invariant behind the single generation: a job in flight is the one
    [generationJob] refers to. *)
Definition pointed (m : t) : Prop :=
  forall i, inFlight m i -> generationJob m = Some i.

(** The events among the effects of a step. *)
Definition events (out : list Effect) : list Event :=
  omap (fun e => match e with sendEvent e => Some e | _ => None end) out.

Definition isError (e : Event) : bool :=
  match e with onError _ => true | _ => false end.

(** The calls of [promise.reject] among the effects of a step. *)
Definition rejections (out : list Effect) : list nat :=
  omap (fun e => match e with reject p _ _ => Some p | _ => None end) out.

(** *** What a flow has emitted *)

(** The [onChunk] events of an emission, in the order of the emission. *)
Definition chunkEvents (rs : list MessageResponse) : list ChunkEvent :=
  omap (fun r =>
          match r with
          | Chunk text => Some {| chunk_text := text; chunk_type := chunk |}
          | ReasoningChunk shown =>
              Some {| chunk_text := shown; chunk_type := reasoning |}
          | Other => None
          end) rs.

(** The texts of the content chunks of an emission. *)
Definition contents (rs : list MessageResponse) : list string :=
  omap (fun r => match r with Chunk text => Some text | _ => None end) rs.

(** Concatenation, from the left, as a [StringBuilder] or a message text
    grows. *)
Definition concat (ts : list string) : string := foldl String.app "" ts.

(** A job whose [responseBuilder] was appended [ts] to, in order. *)
Definition grow (ts : list string) (j : Job) : Job :=
  foldl (fun j text => append text j) j ts.

End LeapSDKModule.

(** ** JavaScript values *)

(** How an [async] function ends: it returns, or throws an error of which
    only [message] is ever read. A rejected bridge promise throws an error
    whose message is the one given to [promise.reject]. *)
Inductive Completion (A : Type) : Type :=
| Return (a : A)
| Throw (message : string).
Arguments Return {A} a.
Arguments Throw {A} message.

Definition awaited {A : Type} (s : Settled A) : Completion A :=
  match s with
  | Resolved v => Return v
  | Rejected _ msg => Throw msg
  end.

(** ** The wrapper ([LeapSDKWrapper], modules/LeapSDK.ts) *)

Module LeapSDKWrapper.
Section Wrapper.

(** The state the caller's callbacks act on. A callback is the state update
    it performs. *)
Context {UI : Type}.

Inductive Listener : Type :=
| chunkListener (f : ChunkEvent -> UI -> UI)
| completeListener (f : CompleteEvent -> UI -> UI)
| errorListener (f : ErrorEvent -> UI -> UI).

(** What follows [await LeapSDK.generateResponse(input)] in the caller of
    the wrapper, once the wrapper has returned or rethrown. *)
Definition Continuation : Type := Completion string -> UI -> UI.

(** - [LeapSDK]: the bridge module behind [NativeModules.LeapSDK];
    - [eventEmitter]: the listeners registered on the emitter, oldest first,
      each under the key of its subscription;
    - [subscriptions]: the field of the wrapper;
    - [awaiting]: the calls of [generateResponse] suspended at their
      [await], by promise. *)
Record t : Type := mk {
  LeapSDK : LeapSDKModule.t;
  eventEmitter : list (nat * Listener);
  subscriptions : list nat;
  nextSubscription : nat;
  awaiting : list (nat * Continuation);
  nextPromise : nat;
  ui : UI }.

Definition init (u : UI) : t :=
  {| LeapSDK := LeapSDKModule.init; eventEmitter := []; subscriptions := [];
     nextSubscription := 0; awaiting := []; nextPromise := 0; ui := u |}.

Definition with_LeapSDK (m : LeapSDKModule.t) (w : t) : t :=
  {| LeapSDK := m; eventEmitter := eventEmitter w;
     subscriptions := subscriptions w;
     nextSubscription := nextSubscription w; awaiting := awaiting w;
     nextPromise := nextPromise w; ui := ui w |}.

Definition with_ui (u : UI) (w : t) : t :=
  {| LeapSDK := LeapSDK w; eventEmitter := eventEmitter w;
     subscriptions := subscriptions w;
     nextSubscription := nextSubscription w; awaiting := awaiting w;
     nextPromise := nextPromise w; ui := u |}.

(** A listener is called with the events of the name it was added under. *)
Definition notify (e : Event) (l : Listener) (u : UI) : UI :=
  match e, l with
  | onChunk c, chunkListener f => f c u
  | onComplete c, completeListener f => f c u
  | onError c, errorListener f => f c u
  | _, _ => u
  end.

(** The emitter calls the listeners in the order they were added. *)
Definition heard (e : Event) (ls : list (nat * Listener)) (u : UI) : UI :=
  foldl (fun u kl => notify e kl.2 u) u ls.

Definition emit (e : Event) (w : t) : t :=
  with_ui (heard e (eventEmitter w) (ui w)) w.

(** [this.eventEmitter.addListener(name, callback)] followed by
    [this.subscriptions.push(sub)], when the callback is given. *)
Definition addListener (l : option Listener) (w : t) : t :=
  match l with
  | Some l =>
      {| LeapSDK := LeapSDK w;
         eventEmitter := eventEmitter w ++ [(nextSubscription w, l)];
         subscriptions := subscriptions w ++ [nextSubscription w];
         nextSubscription := S (nextSubscription w);
         awaiting := awaiting w; nextPromise := nextPromise w; ui := ui w |}
  | None => w
  end.

(** [sub.remove()] *)
Definition remove (sub : nat) (ls : list (nat * Listener))
  : list (nat * Listener) :=
  filter (fun kl => kl.1 <> sub) ls.

(** [removeAllListeners()] *)
Definition removeAllListeners (w : t) : t :=
  {| LeapSDK := LeapSDK w;
     eventEmitter := foldl (fun ls sub => remove sub ls)
                       (eventEmitter w) (subscriptions w);
     subscriptions := [];
     nextSubscription := nextSubscription w; awaiting := awaiting w;
     nextPromise := nextPromise w; ui := ui w |}.

Fixpoint reaction (promise : nat) (a : list (nat * Continuation))
  : option Continuation :=
  match a with
  | [] => None
  | (p, k) :: a => if decide (p = promise) then Some k else reaction promise a
  end.

Definition forget (promise : nat) (a : list (nat * Continuation))
  : list (nat * Continuation) :=
  filter (fun pk => pk.1 <> promise) a.

(** A promise is settled once: the first settlement resumes the call
    suspended on it, which removes all listeners and then returns or
    rethrows to its caller; later settlements of the same promise are
    ignored. *)
Definition settle (promise : nat) (r : Completion string) (w : t) : t :=
  match reaction promise (awaiting w) with
  | Some k =>
      let w1 := removeAllListeners w in
      {| LeapSDK := LeapSDK w1; eventEmitter := eventEmitter w1;
         subscriptions := subscriptions w1;
         nextSubscription := nextSubscription w1;
         awaiting := forget promise (awaiting w1);
         nextPromise := nextPromise w1; ui := k r (ui w1) |}
  | None => w
  end.

(** The effects of the bridge reach JavaScript one at a time, in the order
    they were produced, and the call a settlement resumes runs before the
    next effect arrives. *)
Definition deliver (w : t) (e : Effect) : t :=
  match e with
  | sendEvent e => emit e w
  | resolve p v => settle p (Return v) w
  | reject p _ msg => settle p (Throw msg) w
  end.

Definition deliverAll (out : list Effect) (w : t) : t := foldl deliver w out.

(** [loadModel(modelPath)] *)
Definition loadModel (modelPath : string) (r : Vendor.LoadResult) (w : t)
  : t * Completion bool :=
  let '(m, s) := LeapSDKModule.loadModel modelPath r (LeapSDK w) in
  (with_LeapSDK m w, awaited s).

(** [createConversation()] *)
Definition createConversation (r : Vendor.CreateResult) (w : t)
  : t * Completion bool :=
  let '(m, s) := LeapSDKModule.createConversation r (LeapSDK w) in
  (with_LeapSDK m w, awaited s).

(** [generateResponse(input, onChunk, onComplete, onError)], up to its
    [await]; [k] is what the caller does with the outcome. *)
Definition generateResponse (input : string)
    (onChunk : option (ChunkEvent -> UI -> UI))
    (onComplete : option (CompleteEvent -> UI -> UI))
    (onError : option (ErrorEvent -> UI -> UI))
    (k : Continuation) (w : t) : t :=
  let w := addListener (chunkListener <$> onChunk) w in
  let w := addListener (completeListener <$> onComplete) w in
  let w := addListener (errorListener <$> onError) w in
  let p := nextPromise w in
  let '(m, out) := LeapSDKModule.generateResponse input p (LeapSDK w) in
  deliverAll out
    {| LeapSDK := m; eventEmitter := eventEmitter w;
       subscriptions := subscriptions w;
       nextSubscription := nextSubscription w;
       awaiting := awaiting w ++ [(p, k)];
       nextPromise := S p; ui := ui w |}.

(** One step of job [i] of the bridge, and the delivery of what it sends. *)
Definition step (i : nat) (s : LeapSDKModule.Signal) (w : t) : t :=
  let '(m, out) := LeapSDKModule.step i s (LeapSDK w) in
  deliverAll out (with_LeapSDK m w).

(** [cancelGeneration()] *)
Definition cancelGeneration (thrown : option string) (w : t)
  : t * Completion bool :=
  let w := removeAllListeners w in
  let '(m, s) := LeapSDKModule.cancelGeneration thrown (LeapSDK w) in
  (with_LeapSDK m w, awaited s).

(** [getHistory()] *)
Definition getHistory (thrown : option string) (w : t)
  : Completion (list string) :=
  awaited (LeapSDKModule.getHistory thrown (LeapSDK w)).

(** [cleanup()] *)
Definition cleanup (thrown : option string) (w : t) : t * Completion bool :=
  let w := removeAllListeners w in
  let '(m, s) := LeapSDKModule.cleanup thrown (LeapSDK w) in
  (with_LeapSDK m w, awaited s).

(** *** Runs of the wrapper *)

(** The flow collected by job [i] emits [rs], one response after the other. *)
Definition emitAll (i : nat) (rs : list Vendor.MessageResponse) (w : t) : t :=
  foldl (fun w r => step i (LeapSDKModule.emits r) w) w rs.

(** The states the wrapper and the bridge behind it can be in: any state
    reached from the initial one by calls of the wrapper, steps of the jobs
    of the bridge and state updates of the caller. *)
Inductive reachable : t -> Prop :=
| reach_init u : reachable (init u)
| reach_update f w : reachable w -> reachable (with_ui (f (ui w)) w)
| reach_loadModel modelPath r w :
    reachable w -> reachable (loadModel modelPath r w).1
| reach_createConversation r w :
    reachable w -> reachable (createConversation r w).1
| reach_generateResponse input onChunk onComplete onError k w :
    reachable w ->
    reachable (generateResponse input onChunk onComplete onError k w)
| reach_step i s w : reachable w -> reachable (step i s w)
| reach_cancelGeneration thrown w :
    reachable w -> reachable (cancelGeneration thrown w).1
| reach_cleanup thrown w : reachable w -> reachable (cleanup thrown w).1.

(** Every listener on the emitter is one the wrapper holds the subscription
    of. *)
Definition subscribed (w : t) : Prop :=
  Forall (fun kl => kl.1 ∈ subscriptions w) (eventEmitter w).

End Wrapper.
Arguments t : clear implicits.
Arguments Listener : clear implicits.
Arguments Continuation : clear implicits.
End LeapSDKWrapper.

(** ** The service ([LeapLiquidAIService], services/leapLiquidAI.ts) *)

Module LeapLiquidAIService.

Record t : Type := mk {
  isInitialized : bool;
  modelPath : option string;
  conversationCreated : bool }.

Definition init : t :=
  {| isInitialized := false; modelPath := None;
     conversationCreated := false |}.

Definition defaultModelPath : string := "/data/local/tmp/leap/model.bundle".

Definition notInitialized : string :=
  "Leap Liquid AI is not initialized. Call initialize() first.".

Definition noConversation : string :=
  "No conversation created. Call createConversation() first.".

Record GenerationCallbacks (UI : Type) : Type := {
  onChunk : option (ChunkEvent -> UI -> UI);
  onComplete : option (CompleteEvent -> UI -> UI);
  onError : option (ErrorEvent -> UI -> UI) }.
Arguments onChunk {UI} _.
Arguments onComplete {UI} _.
Arguments onError {UI} _.

Section Service.
Context {UI : Type}.
Abbreviation SDK := (LeapSDKWrapper.t UI).

(** [initialize(modelPath)]; [path = None] is the call without argument. *)
Definition initialize (path : option string) (r : Vendor.LoadResult)
    (s : t) (w : SDK) : t * SDK * Completion unit :=
  let path := default defaultModelPath path in
  if isInitialized s then (s, w, Return tt)
  else
    let s := {| isInitialized := isInitialized s; modelPath := Some path;
                conversationCreated := conversationCreated s |} in
    match LeapSDKWrapper.loadModel path r w with
    | (w, Return _) =>
        ({| isInitialized := true; modelPath := modelPath s;
            conversationCreated := conversationCreated s |}, w, Return tt)
    | (w, Throw msg) =>
        ({| isInitialized := false; modelPath := modelPath s;
            conversationCreated := conversationCreated s |}, w, Throw msg)
    end.


(** [createConversation()] *)
Definition createConversation (r : Vendor.CreateResult) (s : t) (w : SDK)
  : t * SDK * Completion unit :=
  if negb (isInitialized s) then (s, w, Throw notInitialized)
  else
    match LeapSDKWrapper.createConversation r w with
    | (w, Return _) =>
        ({| isInitialized := isInitialized s; modelPath := modelPath s;
            conversationCreated := true |}, w, Return tt)
    | (w, Throw msg) => (s, w, Throw msg)
    end.

(** [sendMessage(userMessage, callbacks)], up to the [await] of the wrapper
    call; [k] is what the caller does with the text returned or the error
    thrown. The two guards throw before anything is subscribed. *)
Definition sendMessage (userMessage : string)
    (callbacks : option (GenerationCallbacks UI))
    (k : LeapSDKWrapper.Continuation UI) (s : t) (w : SDK) : SDK :=
  if negb (isInitialized s) then
    LeapSDKWrapper.with_ui (k (Throw notInitialized) (LeapSDKWrapper.ui w)) w
  else if negb (conversationCreated s) then
    LeapSDKWrapper.with_ui (k (Throw noConversation) (LeapSDKWrapper.ui w)) w
  else
    LeapSDKWrapper.generateResponse userMessage
      (callbacks ≫= onChunk) (callbacks ≫= onComplete)
      (callbacks ≫= onError) k w.

(** [cancelGeneration()] *)
Definition cancelGeneration (thrown : option string) (s : t) (w : SDK)
  : SDK * Completion unit :=
  match LeapSDKWrapper.cancelGeneration thrown w with
  | (w, Return _) => (w, Return tt)
  | (w, Throw msg) => (w, Throw msg)
  end.

(** [getHistory()] *)
Definition getHistory (thrown : option string) (s : t) (w : SDK)
  : Completion (list string) :=
  if negb (isInitialized s) then Throw notInitialized
  else LeapSDKWrapper.getHistory thrown w.

(** [cleanup()] *)
Definition cleanup (thrown : option string) (s : t) (w : SDK)
  : t * SDK * Completion unit :=
  match LeapSDKWrapper.cleanup thrown w with
  | (w, Return _) =>
      ({| isInitialized := false; modelPath := None;
          conversationCreated := false |}, w, Return tt)
  | (w, Throw msg) => (s, w, Throw msg)
  end.

(** *** Runs of the service *)

(** What can happen to the service and what is behind it: a call of one of
    its methods that change a state, or a step of a job of the bridge. *)
Inductive Call : Type :=
| Initialize (path : option string) (r : Vendor.LoadResult)
| CreateConversation (r : Vendor.CreateResult)
| SendMessage (userMessage : string)
    (callbacks : option (GenerationCallbacks UI))
    (k : LeapSDKWrapper.Continuation UI)
| CancelGeneration (thrown : option string)
| Cleanup (thrown : option string)
| Step (i : nat) (s : LeapSDKModule.Signal).

Definition exec (sw : t * SDK) (c : Call) : t * SDK :=
  let '(s, w) := sw in
  match c with
  | Initialize path r => (initialize path r s w).1
  | CreateConversation r => (createConversation r s w).1
  | SendMessage userMessage callbacks k =>
      (s, sendMessage userMessage callbacks k s w)
  | CancelGeneration thrown => (s, (cancelGeneration thrown s w).1)
  | Cleanup thrown => (cleanup thrown s w).1
  | Step i sig => (s, LeapSDKWrapper.step i sig w)
  end.

Definition run (u : UI) (cs : list Call) : t * SDK :=
  foldl exec (init, LeapSDKWrapper.init u) cs.

(** The flags of the service tell what the bridge holds. *)
Definition consistent (sw : t * SDK) : Prop :=
  let m := LeapSDKWrapper.LeapSDK sw.2 in
  (isInitialized sw.1 = true <-> is_Some (LeapSDKModule.modelRunner m)) /\
  (conversationCreated sw.1 = true
   <-> is_Some (LeapSDKModule.currentConversation m)) /\
  (conversationCreated sw.1 = true -> isInitialized sw.1 = true) /\
  (isInitialized sw.1 = true -> is_Some (modelPath sw.1)).

End Service.
End LeapLiquidAIService.

(** ** The chat screen ([ChatScreen], app/chat.tsx) *)

Module ChatScreen.

Inductive Role : Type := user | assistant.

(** [id] is a string; [timestamp] is the reading of the clock taken by
    [new Date()], in milliseconds. *)
Record Message : Type := {
  id : string;
  text : string;
  role : Role;
  timestamp : N }.

(** The React state of the component. *)
Record State : Type := {
  messages : list Message;
  inputText : string;
  isLoading : bool;
  isInitialized : bool;
  isInitializing : bool;
  currentResponseId : option string }.

(** The component together with the singleton service it imports and the
    wrapper the service imports. *)
Record t : Type := mk {
  leapLiquidAI : LeapLiquidAIService.t;
  sdk : LeapSDKWrapper.t State }.

Definition setMessages (f : list Message -> list Message) (st : State)
  : State :=
  {| messages := f (messages st); inputText := inputText st;
     isLoading := isLoading st; isInitialized := isInitialized st;
     isInitializing := isInitializing st;
     currentResponseId := currentResponseId st |}.

Definition setInputText (v : string) (st : State) : State :=
  {| messages := messages st; inputText := v;
     isLoading := isLoading st; isInitialized := isInitialized st;
     isInitializing := isInitializing st;
     currentResponseId := currentResponseId st |}.

Definition setIsLoading (v : bool) (st : State) : State :=
  {| messages := messages st; inputText := inputText st;
     isLoading := v; isInitialized := isInitialized st;
     isInitializing := isInitializing st;
     currentResponseId := currentResponseId st |}.

Definition setIsInitialized (v : bool) (st : State) : State :=
  {| messages := messages st; inputText := inputText st;
     isLoading := isLoading st; isInitialized := v;
     isInitializing := isInitializing st;
     currentResponseId := currentResponseId st |}.

Definition setIsInitializing (v : bool) (st : State) : State :=
  {| messages := messages st; inputText := inputText st;
     isLoading := isLoading st; isInitialized := isInitialized st;
     isInitializing := v;
     currentResponseId := currentResponseId st |}.

Definition setCurrentResponseId (v : option string) (st : State) : State :=
  {| messages := messages st; inputText := inputText st;
     isLoading := isLoading st; isInitialized := isInitialized st;
     isInitializing := isInitializing st;
     currentResponseId := v |}.

Definition LF : string :=
  String
    (Stdlib.Strings.Ascii.Ascii
       false true false true false false false false) "".

Definition welcome (date : N) : Message :=
  {| id := "1";
     text := "Hello! I'm your AI assistant. How can I help you today?";
     role := assistant; timestamp := date |}.

Definition welcomeReady (date : N) : Message :=
  {| id := "1";
     text := "Hello! I'm your AI assistant powered by Leap Liquid AI. "
             +:+ "How can I help you today?";
     role := assistant; timestamp := date |}.

Definition notAvailable (errorMessage : string) (date : N) : Message :=
  {| id := "1";
     text := "AI model not available. Error: " +:+ errorMessage +:+ LF +:+ LF
             +:+ "Please ensure the model bundle is loaded on the device.";
     role := assistant; timestamp := date |}.

(** The component as first rendered. *)
Definition mount (date : N) : t :=
  {| leapLiquidAI := LeapLiquidAIService.init;
     sdk := LeapSDKWrapper.init
              {| messages := [welcome date]; inputText := "";
                 isLoading := false; isInitialized := false;
                 isInitializing := false; currentResponseId := None |} |}.

Definition update (f : State -> State) (c : t) : t :=
  {| leapLiquidAI := leapLiquidAI c;
     sdk := LeapSDKWrapper.with_ui (f (LeapSDKWrapper.ui (sdk c))) (sdk c) |}.

Definition state (c : t) : State := LeapSDKWrapper.ui (sdk c).

(** [a || b] on strings: [b] when [a] is empty. *)
Definition orElse (a b : string) : string :=
  if decide (a = "") then b else a.

(** [initializeSDK], the effect run on mount. [date] is the clock reading of
    the message it sets. *)
Definition initializeSDK (isMounted : bool) (load : Vendor.LoadResult)
    (create : Vendor.CreateResult) (date : N) (c : t) : t :=
  if isInitialized (state c) || isInitializing (state c) then c
  else
    let c := update (setIsInitializing true) c in
    let modelPath := "/data/local/tmp/leap/model.bundle" in
    let '(s, w, r) :=
      LeapLiquidAIService.initialize (Some modelPath) load
        (leapLiquidAI c) (sdk c) in
    let '(s, w, r) :=
      match r with
      | Return _ => LeapLiquidAIService.createConversation create s w
      | Throw msg => (s, w, Throw msg)
      end in
    let c := {| leapLiquidAI := s; sdk := w |} in
    let c :=
      match r with
      | Return _ =>
          if isMounted then
            update (fun st => setMessages (fun _ => [welcomeReady date])
                                (setIsInitialized true st)) c
          else c
      | Throw msg =>
          let errorMessage := orElse msg "Unknown error" in
          if isMounted then
            update (setMessages (fun _ => [notAvailable errorMessage date])) c
          else c
      end in
    if isMounted then update (setIsInitializing false) c else c.

(** [String.prototype.trim], on the white space of ASCII. *)
Fixpoint trimStart (s : string) : string :=
  match s with
  | String a s' => if Ascii.is_space a then trimStart s' else s
  | EmptyString => s
  end.

Definition trim (s : string) : string :=
  String.rev (trimStart (String.rev (trimStart s))).

(** The state update of each callback [handleSend] passes on, and of its
    [catch] block. *)
Definition retext (responseId : string) (f : string -> string)
  : list Message -> list Message :=
  map (fun msg =>
         if decide (id msg = responseId)
         then {| id := id msg; text := f (text msg); role := role msg;
                 timestamp := timestamp msg |}
         else msg).

Definition callbacks (responseId : string)
  : LeapLiquidAIService.GenerationCallbacks State :=
  {| LeapLiquidAIService.onChunk := Some (fun chunk =>
       setMessages (retext responseId (fun t => t +:+ chunk_text chunk)));
     LeapLiquidAIService.onComplete := Some (fun complete =>
       setMessages (retext responseId (fun _ => complete_text complete)));
     LeapLiquidAIService.onError := Some (fun err =>
       setMessages (retext responseId (fun _ => "Error: " +:+ error err))) |}.

(** What [handleSend] does once [sendMessage] has returned or thrown: the
    [catch] block, then the [finally] block. *)
Definition afterSend (responseId : string)
  : LeapSDKWrapper.Continuation State :=
  fun r st =>
    let st :=
      match r with
      | Return _ => st
      | Throw msg =>
          let errorMessage := orElse msg "Unknown error occurred" in
          setMessages (retext responseId (fun _ =>
            "Sorry, I encountered an error: " +:+ errorMessage)) st
      end in
    setCurrentResponseId None (setIsLoading false st).

(** The four readings of the clock [handleSend] takes, in order:
    [Date.now()], [new Date()], [Date.now()], [new Date()]. *)
Record Clock : Type := {
  now1 : N; date1 : N; now2 : N; date2 : N }.

(** [handleSend], up to the [await] of [sendMessage]. *)
Definition handleSend (clock : Clock) (c : t) : t :=
  let st := state c in
  if bool_decide (trim (inputText st) = "") || isLoading st
     || negb (isInitialized st) then c
  else
    let userMessage :=
      {| id := pretty (now1 clock); text := trim (inputText st);
         role := user; timestamp := date1 clock |} in
    let c := update (setMessages (fun prev => prev ++ [userMessage])) c in
    let userInput := trim (inputText st) in
    let c := update (setInputText "") c in
    let c := update (setIsLoading true) c in
    let responseId := pretty (now2 clock + 1)%N in
    let c := update (setCurrentResponseId (Some responseId)) c in
    let assistantMessage :=
      {| id := responseId; text := ""; role := assistant;
         timestamp := date2 clock |} in
    let c := update (setMessages (fun prev => prev ++ [assistantMessage])) c in
    {| leapLiquidAI := leapLiquidAI c;
       sdk := LeapLiquidAIService.sendMessage userInput
                (Some (callbacks responseId)) (afterSend responseId)
                (leapLiquidAI c) (sdk c) |}.

(** The user types [v] in the input. *)
Definition type (v : string) (c : t) : t := update (setInputText v) c.

(** One step of job [i] of the bridge. *)
Definition step (i : nat) (s : LeapSDKModule.Signal) (c : t) : t :=
  {| leapLiquidAI := leapLiquidAI c;
     sdk := LeapSDKWrapper.step i s (sdk c) |}.

(** *** One turn *)

(** The screen after a successful load and conversation creation, with
    [v] typed and sent. *)
Definition opened (date0 date : N) (runner : Vendor.ModelRunner)
    (conversation : Vendor.Conversation) (v : string) (clock : Clock) : t :=
  handleSend clock
    (type v
       (initializeSDK true (Vendor.Loaded runner)
          (Vendor.Created conversation) date (mount date0))).

(** The flow collected by job [i] emits [rs], one response after the other. *)
Definition emitAll (i : nat) (rs : list Vendor.MessageResponse) (c : t) : t :=
  foldl (fun c r => step i (LeapSDKModule.emits r) c) c rs.

(** The clock has started and does not run backwards between the two
    readings that make the identifiers. *)
Definition ticking (clock : Clock) : Prop :=
  (0 < now1 clock)%N /\ (now1 clock <= now2 clock)%N.

Definition responseId (clock : Clock) : string := pretty (now2 clock + 1)%N.

(** The message list of the turn, with [t] as the text of the response. *)
Definition turn (date : N) (v : string) (clock : Clock) (t : string)
  : list Message :=
  [ welcomeReady date;
    {| id := pretty (now1 clock); text := trim v; role := user;
       timestamp := date1 clock |};
    {| id := responseId clock; text := t; role := assistant;
       timestamp := date2 clock |} ].

(** The callbacks of [handleSend] as listeners on a fresh emitter. *)
Definition listeners (responseId : string)
  : list (nat * LeapSDKWrapper.Listener State) :=
  [ (0, LeapSDKWrapper.chunkListener (fun chunk =>
          setMessages (retext responseId (fun t => t +:+ chunk_text chunk))));
    (1, LeapSDKWrapper.completeListener (fun complete =>
          setMessages (retext responseId (fun _ => complete_text complete))));
    (2, LeapSDKWrapper.errorListener (fun err =>
          setMessages
            (retext responseId (fun _ => "Error: " +:+ error err)))) ].

(** The wrapper and the bridge in the middle of that turn, when the text of
    the response is [t] and the builder of the job holds [b]. *)
Definition streaming (date : N) (runner : Vendor.ModelRunner)
    (conversation : Vendor.Conversation) (v : string) (clock : Clock)
    (t b : string) : LeapSDKWrapper.t State :=
  {| LeapSDKWrapper.LeapSDK :=
       {| LeapSDKModule.modelRunner := Some runner;
          LeapSDKModule.currentConversation := Some conversation;
          LeapSDKModule.generationJob := Some 0;
          LeapSDKModule.scope :=
            [LeapSDKModule.mkJob (trim v) 0 b LeapSDKModule.Active] |};
     LeapSDKWrapper.eventEmitter := listeners (responseId clock);
     LeapSDKWrapper.subscriptions := [0; 1; 2];
     LeapSDKWrapper.nextSubscription := 3;
     LeapSDKWrapper.awaiting := [(0, afterSend (responseId clock))];
     LeapSDKWrapper.nextPromise := 1;
     LeapSDKWrapper.ui :=
       {| messages := turn date v clock t; inputText := "";
          isLoading := true; isInitialized := true; isInitializing := false;
          currentResponseId := Some (responseId clock) |} |}.

(** The service once the model is loaded and the conversation created. *)
Definition ready : LeapLiquidAIService.t :=
  {| LeapLiquidAIService.isInitialized := true;
     LeapLiquidAIService.modelPath := Some "/data/local/tmp/leap/model.bundle";
     LeapLiquidAIService.conversationCreated := true |}.

(** *** Any turn *)


(** The user types [v] and sends it. *)
Definition send (v : string) (clock : Clock) (c : t) : t :=
  handleSend clock (type v c).

Definition userMessage (v : string) (clock : Clock) : Message :=
  {| id := pretty (now1 clock); text := trim v; role := user;
     timestamp := date1 clock |}.

Definition assistantMessage (clock : Clock) (t : string) : Message :=
  {| id := responseId clock; text := t; role := assistant;
     timestamp := date2 clock |}.

(** The screen between two turns: the model is loaded, the conversation
    created, nothing is loading, and the wrapper has no listener,
    subscription or suspended call left. *)
Definition idle (c : t) : Prop :=
  isLoading (state c) = false /\ isInitialized (state c) = true /\
  LeapLiquidAIService.isInitialized (leapLiquidAI c) = true /\
  LeapLiquidAIService.conversationCreated (leapLiquidAI c) = true /\
  is_Some (LeapSDKModule.currentConversation (LeapSDKWrapper.LeapSDK (sdk c)))
  /\ LeapSDKWrapper.eventEmitter (sdk c) = []
  /\ LeapSDKWrapper.subscriptions (sdk c) = []
  /\ LeapSDKWrapper.awaiting (sdk c) = [].

(** The identifiers the clock gives a turn are new to the message list. *)
Definition fresh (clock : Clock) (c : t) : Prop :=
  (now1 clock <= now2 clock)%N /\
  responseId clock ∉ id <$> messages (state c).

(** *** Runs of the screen *)

(** What can happen to a mounted screen: its mount effect runs, the user
    types, the user presses send, a job of the bridge takes a step. *)
Inductive Action : Type :=
| Mounted (isMounted : bool) (load : Vendor.LoadResult)
    (create : Vendor.CreateResult) (date : N)
| Typed (v : string)
| Pressed (clock : Clock)
| Stepped (i : nat) (s : LeapSDKModule.Signal).

Definition perform (c : t) (a : Action) : t :=
  match a with
  | Mounted isMounted load create date =>
      initializeSDK isMounted load create date c
  | Typed v => type v c
  | Pressed clock => handleSend clock c
  | Stepped i s => step i s c
  end.

Definition run (date0 : N) (acts : list Action) : t :=
  foldl perform (mount date0) acts.

(** The screen lets the user send only when the service would. *)
Definition gated (c : t) : Prop :=
  isInitialized (state c) = true ->
  LeapLiquidAIService.isInitialized (leapLiquidAI c) = true /\
  LeapLiquidAIService.conversationCreated (leapLiquidAI c) = true.

(** A state update that does not touch [isInitialized]. *)
Definition steady (f : State -> State) : Prop :=
  forall u, isInitialized (f u) = isInitialized u.

(** Every listener on the emitter and every suspended call is steady. *)
Definition tame (w : LeapSDKWrapper.t State) : Prop :=
  Forall (fun kl => forall e, steady (LeapSDKWrapper.notify e kl.2))
    (LeapSDKWrapper.eventEmitter w) /\
  Forall (fun pk => forall r, steady (pk.2 r)) (LeapSDKWrapper.awaiting w).

(** The screen accepts a press on send. *)
Definition accepting (c : t) : Prop :=
  trim (inputText (state c)) <> "" /\ isLoading (state c) = false /\
  isInitialized (state c) = true.

(** The load or the conversation creation of the mount effect fails. *)
Definition failing (load : Vendor.LoadResult) (create : Vendor.CreateResult)
  : Prop :=
  match load, create with
  | Vendor.Loaded _, Vendor.Created _ => False
  | _, _ => True
  end.

(** What the screen keeps in every state it reaches. *)
Definition kept (c : t) : Prop :=
  LeapLiquidAIService.consistent (leapLiquidAI c, sdk c) /\
  gated c /\ tame (sdk c).

End ChatScreen.

(** * Facts *)

(** ** The bridge module *)

Section Bridge.
Import Vendor LeapSDKModule.

Lemma onEach_state r j : state (onEach r j).1 = state j.
Proof. by destruct r. Qed.

(** No step of a job brings it back in flight. *)
Lemma react_active s j : state (react s j).1 = Active -> state j = Active.
Proof.
  unfold react. destruct (state j) eqn:E, s; simpl; intros H;
    rewrite ?onEach_state, ?E in H; done.
Qed.

Lemma cancelJob_idle j : state (cancelJob j) <> Active.
Proof. unfold cancelJob. by destruct (state j) eqn:E; simpl; rewrite ?E. Qed.

Lemma cancelJob_active j : state (cancelJob j) = Active -> state j = Active.
Proof. intros H. by apply cancelJob_idle in H. Qed.

(** After [generationJob?.cancel()] no job is in flight. *)
Lemma cancel_quiet m i j :
  pointed m -> cancel (generationJob m) (scope m) !! i = Some j ->
  state j <> Active.
Proof.
  intros Hp Hi Hj. unfold cancel in Hi.
  destruct (generationJob m) as [g|] eqn:Hg.
  - destruct (decide (g = i)) as [->|Hne].
    + rewrite list_lookup_alter_eq in Hi.
      destruct (scope m !! i) as [j0|]; simplify_eq/=.
      by apply cancelJob_idle in Hj.
    + rewrite list_lookup_alter_ne in Hi by done.
      assert (Some g = Some i) by (rewrite <-Hg; apply Hp; by exists j).
      congruence.
  - assert (None = Some i) by (rewrite <-Hg; apply Hp; by exists j). done.
Qed.

Lemma exec_pointed m c : pointed m -> pointed (exec m c).1.
Proof.
  intros Hp. destruct c as [path r|r|inp p|thrown|thrown|i s]; simpl.
  - by destruct r.
  - unfold createConversation. destruct (modelRunner m); [|done]. by destruct r.
  - unfold generateResponse. destruct (currentConversation m); [|done]. simpl.
    intros i (j & Hi & Hj); simpl in *.
    apply lookup_app_Some in Hi as [Hi|[Hlen Hi]].
    + by destruct (cancel_quiet m i j).
    + destruct (i - length (cancel (generationJob m) (scope m))) eqn:E;
        simplify_eq/=. f_equal. lia.
  - destruct thrown; [done|]. intros i (j & Hi & Hj); simpl in *.
    by destruct (cancel_quiet m i j).
  - destruct thrown; [done|]. intros i (j & Hi & Hj); simpl in *.
    by destruct (cancel_quiet m i j).
  - unfold step. destruct (scope m !! i) as [j|] eqn:Hi; [|done].
    destruct (react s j) as [j' out] eqn:Hr; simpl.
    intros i' (j0 & Hi' & Hj0); simpl in *. apply Hp.
    destruct (decide (i = i')) as [->|Hne].
    + rewrite list_lookup_insert_eq in Hi' by (by eapply lookup_lt_Some).
      simplify_eq. exists j. split; [done|].
      apply (react_active s). by rewrite Hr.
    + rewrite list_lookup_insert_ne in Hi' by done. by exists j0.
Qed.

Lemma run_pointed cs : pointed (run cs).
Proof.
  unfold run. induction cs as [|c cs IH] using rev_ind.
  - intros i (j & Hi & _). done.
  - rewrite foldl_snoc. by apply exec_pointed.
Qed.

Lemma cancel_cancelling m i :
  pointed m -> inFlight m i ->
  exists j, cancel (generationJob m) (scope m) !! i = Some j
            /\ state j = Cancelling.
Proof.
  intros Hp (j & Hi & Hj).
  rewrite (Hp i) by (by exists j). simpl.
  rewrite list_lookup_alter_eq, Hi. simpl. exists (cancelJob j).
  split; [done|]. unfold cancelJob. by rewrite Hj.
Qed.

(** A job that sends a chunk or the completion is in flight. *)
Lemma step_streams m i s e :
  e ∈ events (step i s m).2 -> isError e = false -> inFlight m i.
Proof.
  unfold step. destruct (scope m !! i) as [j|] eqn:Hi; simpl.
  - destruct (react s j) as [j' out] eqn:Hr; simpl. intros He Hne.
    exists j. split; [done|]. unfold react in Hr.
    revert Hr. destruct (state j); [done|..]; destruct s; intros Hr;
      unfold finish in Hr; simplify_eq/=;
      repeat (apply elem_of_cons in He as [->|He]; [done|]);
      by apply elem_of_nil in He.
  - intros He. by apply elem_of_nil in He.
Qed.

(** What a fault of the flow makes a job in flight send. *)
Lemma fault_effects m i j msg :
  scope m !! i = Some j -> state j = Active ->
  (step i (throws msg) m).2 =
    [ sendEvent (onError {| error := "Error in generation: " +:+ msg |});
      reject (promise j) "GENERATION_ERROR" ("Error in generation: " +:+ msg);
      sendEvent (onError {| error := "Error in generation: " +:+ msg |});
      reject (promise j) "GENERATION_ERROR" ("Error in generation: " +:+ msg) ].
Proof.
  intros Hi Hj. unfold step. rewrite Hi. unfold react. by rewrite Hj.
Qed.

(** What a cancellation makes a cancelled job send. *)
Lemma unwind_effects m i j msg :
  scope m !! i = Some j -> state j = Cancelling ->
  (step i (unwinds msg) m).2 =
    [ sendEvent (onError {| error := "Error in generation: " +:+ msg |});
      reject (promise j) "GENERATION_ERROR"
        ("Error in generation: " +:+ msg) ].
Proof.
  intros Hi Hj. unfold step. rewrite Hi. unfold react. by rewrite Hj.
Qed.

End Bridge.

(** C5. At most one generation is in flight: in every state the bridge
    module reaches, a job in flight is the one [generationJob] refers to, so
    there is at most one; only a job in flight sends chunks or a completion;
    and [generateResponse], when there is a conversation, first cancels the
    job in flight (after which none is), and only then launches the new
    job, which is then the only one in flight and has sent nothing. *)
Theorem single_generation_in_flight
    (cs : list LeapSDKModule.Call) (input : string) (promise : nat) :
  let m := LeapSDKModule.run cs in
  let js := LeapSDKModule.cancel (LeapSDKModule.generationJob m)
              (LeapSDKModule.scope m) in
  (forall i i', LeapSDKModule.inFlight m i -> LeapSDKModule.inFlight m i' ->
     i = i' /\ LeapSDKModule.generationJob m = Some i) /\
  (forall i s e, e ∈ LeapSDKModule.events (LeapSDKModule.step i s m).2 ->
     LeapSDKModule.isError e = false -> LeapSDKModule.inFlight m i) /\
  (forall conversation,
     LeapSDKModule.currentConversation m = Some conversation ->
     (forall i, LeapSDKModule.inFlight m i ->
        exists j, js !! i = Some j
                  /\ LeapSDKModule.state j = LeapSDKModule.Cancelling) /\
     (forall i j, js !! i = Some j ->
        LeapSDKModule.state j <> LeapSDKModule.Active) /\
     LeapSDKModule.generateResponse input promise m =
       (LeapSDKModule.with_jobs m (Some (length js))
          (js ++ [LeapSDKModule.mkJob input promise "" LeapSDKModule.Active]),
        []) /\
     (forall i,
        LeapSDKModule.inFlight
          (LeapSDKModule.generateResponse input promise m).1 i
        <-> i = length js)).
Proof.
  intros m js. pose proof (run_pointed cs) as Hp. fold m in Hp.
  split; [|split].
  - intros i i' Hi Hi'. pose proof (Hp i Hi). pose proof (Hp i' Hi').
    split; [congruence|done].
  - intros i s e. apply step_streams.
  - intros conversation Hc. split; [|split; [|split]].
    + intros i Hi. by apply cancel_cancelling.
    + intros i j. by apply cancel_quiet.
    + unfold LeapSDKModule.generateResponse. by rewrite Hc.
    + intros i. unfold LeapSDKModule.generateResponse. rewrite Hc. simpl.
      fold js. split.
      * intros (j & Hi & Hj). simpl in Hi.
        apply lookup_app_Some in Hi as [Hi|[Hlen Hi]].
        -- by destruct (cancel_quiet m i j).
        -- destruct (i - length js) eqn:E; simplify_eq/=. lia.
      * intros ->.
        exists (LeapSDKModule.mkJob input promise "" LeapSDKModule.Active).
        split; [|done]. simpl. by apply list_lookup_middle.
Qed.

Lemma single_generation_in_flight_witness :
  let cs := [ LeapSDKModule.LoadModel "/m"
                (Vendor.Loaded {| Vendor.bundle := "m" |});
              LeapSDKModule.CreateConversation
                (Vendor.Created {| Vendor.history := [] |});
              LeapSDKModule.GenerateResponse "A" 0 ] in
  LeapSDKModule.currentConversation (LeapSDKModule.run cs)
    = Some {| Vendor.history := [] |} /\
  LeapSDKModule.generateResponse "B" 1 (LeapSDKModule.run cs) =
    ({| LeapSDKModule.modelRunner := Some {| Vendor.bundle := "m" |};
        LeapSDKModule.currentConversation := Some {| Vendor.history := [] |};
        LeapSDKModule.generationJob := Some 1;
        LeapSDKModule.scope :=
          [ LeapSDKModule.mkJob "A" 0 "" LeapSDKModule.Cancelling;
            LeapSDKModule.mkJob "B" 1 "" LeapSDKModule.Active ] |}, []).
Proof.
  intros cs. split; [reflexivity|].
  exact (proj1 (proj2 (proj2 (proj2 (proj2
           (single_generation_in_flight cs "B" 1))
           {| Vendor.history := [] |} eq_refl)))).
Defined.

(** C3. A fault of the response flow reaches the JavaScript side twice: the
    job that collects the flow sends [onError] from its [onCompletion]
    block and again from its [catch] block, and calls [promise.reject] in
    each. Evaluated after a load, a conversation creation and
    [generateResponse("Hi")], when the flow throws before any chunk. *)
Theorem fault_reported_twice :
  let m := LeapSDKModule.run
             [ LeapSDKModule.LoadModel "/m"
                 (Vendor.Loaded {| Vendor.bundle := "m" |});
               LeapSDKModule.CreateConversation
                 (Vendor.Created {| Vendor.history := [] |});
               LeapSDKModule.GenerateResponse "Hi" 0 ] in
  let out := (LeapSDKModule.step 0 (LeapSDKModule.throws "boom") m).2 in
  LeapSDKModule.events out =
    [ onError {| error := "Error in generation: boom" |};
      onError {| error := "Error in generation: boom" |} ] /\
  length (filter (fun e => LeapSDKModule.isError e = true)
            (LeapSDKModule.events out)) = 2 /\
  LeapSDKModule.rejections out = [0; 0].
Proof. by vm_compute. Qed.

(** ** The wrapper *)

Section WrapperFacts.
Import LeapSDKWrapper.
Context {UI : Type}.
Implicit Types w : LeapSDKWrapper.t UI.

(** [removeAllListeners] takes off the emitter the listeners the wrapper
    holds the subscription of, and only those. *)
Lemma removeAll_filter (subs : list nat) (ls : list (nat * Listener UI)) :
  foldl (fun ls sub => remove sub ls) ls subs
  = filter (fun kl => kl.1 ∉ subs) ls.
Proof.
  revert ls. induction subs as [|s subs IH]; intros ls; simpl.
  - induction ls as [|kl ls IHl]; [done|].
    rewrite filter_cons_True by apply not_elem_of_nil. by f_equal.
  - rewrite IH. unfold remove. rewrite list_filter_filter.
    apply list_filter_iff. intros kl. rewrite not_elem_of_cons. tauto.
Qed.

Lemma removeAll_subscribed w :
  subscribed w -> eventEmitter (removeAllListeners w) = [].
Proof.
  unfold subscribed. simpl. rewrite removeAll_filter.
  induction 1 as [|kl ls Hkl _ IH]; [done|].
  by rewrite filter_cons_False by tauto.
Qed.

Lemma removeAll_silent w : subscribed w -> subscribed (removeAllListeners w).
Proof.
  intros H. unfold subscribed. rewrite removeAll_subscribed by done.
  constructor.
Qed.

Lemma subscribed_ext w w' :
  eventEmitter w' = eventEmitter w -> subscriptions w' = subscriptions w ->
  subscribed w -> subscribed w'.
Proof. unfold subscribed. by intros -> ->. Qed.

Lemma addListener_subscribed l w : subscribed w -> subscribed (addListener l w).
Proof.
  destruct l as [l|]; [|done]. unfold subscribed. simpl. intros H.
  apply Forall_app. split.
  - eapply Forall_impl; [done|]. intros kl Hkl. apply elem_of_app. by left.
  - constructor; [|done]. apply elem_of_app. right.
    by apply list_elem_of_singleton.
Qed.

Lemma settle_subscribed p r w : subscribed w -> subscribed (settle p r w).
Proof.
  intros H. unfold settle. destruct (reaction p (awaiting w)); [|done].
  by apply (subscribed_ext (removeAllListeners w)), removeAll_silent.
Qed.

Lemma deliver_subscribed w e : subscribed w -> subscribed (deliver w e).
Proof. destruct e; simpl; [done|apply settle_subscribed..]. Qed.

Lemma deliverAll_subscribed out w :
  subscribed w -> subscribed (deliverAll out w).
Proof.
  revert w. induction out as [|e out IH]; intros w H; [done|].
  apply IH. by apply deliver_subscribed.
Qed.

(** The invariant of the wrapper: no listener outlives its subscription. *)
Lemma reachable_subscribed w : reachable w -> subscribed w.
Proof.
  induction 1 as [u|f w _ IH|path r w _ IH|r w _ IH
                  |inp oc ocp oe k w _ IH|i s w _ IH|thrown w _ IH
                  |thrown w _ IH].
  - constructor.
  - done.
  - unfold loadModel. by destruct (LeapSDKModule.loadModel _ _ _).
  - unfold createConversation.
    by destruct (LeapSDKModule.createConversation _ _).
  - unfold generateResponse.
    destruct (LeapSDKModule.generateResponse _ _ _) as [m out].
    apply deliverAll_subscribed.
    eapply subscribed_ext; [reflexivity..|].
    by do 3 apply addListener_subscribed.
  - unfold step. destruct (LeapSDKModule.step _ _ _) as [m out].
    by apply deliverAll_subscribed.
  - unfold cancelGeneration.
    destruct (LeapSDKModule.cancelGeneration _ _) as [m out].
    by apply (subscribed_ext (removeAllListeners w)), removeAll_silent.
  - unfold cleanup. destruct (LeapSDKModule.cleanup _ _) as [m out].
    by apply (subscribed_ext (removeAllListeners w)), removeAll_silent.
Qed.

(** With no listener on the emitter, events change nothing. *)
Lemma deliver_events_deaf (es : list Event) w :
  eventEmitter w = [] -> deliverAll (sendEvent <$> es) w = w.
Proof.
  intros H. induction es as [|e es IH]; [done|]. simpl.
  unfold deliverAll in *; simpl. unfold emit, heard. rewrite H. simpl.
  replace (with_ui (ui w) w) with w by (by destruct w). done.
Qed.

End WrapperFacts.

Section WrapperStreams.
Import Vendor LeapSDKWrapper.
Context {UI : Type}.
Implicit Types w : LeapSDKWrapper.t UI.

Lemma with_jobs_id (m : LeapSDKModule.t) :
  LeapSDKModule.with_jobs m (LeapSDKModule.generationJob m)
    (LeapSDKModule.scope m) = m.
Proof. by destruct m. Qed.

(** While job [i] is in flight, what its flow emits reaches the listeners
    chunk by chunk, in order, and nothing else changes but the builder of
    the job. *)
Lemma emitAll_spec rs w i j :
  LeapSDKModule.scope (LeapSDK w) !! i = Some j ->
  LeapSDKModule.state j = LeapSDKModule.Active ->
  emitAll i rs w =
    {| LeapSDK :=
         LeapSDKModule.with_jobs (LeapSDK w)
           (LeapSDKModule.generationJob (LeapSDK w))
           (<[i := LeapSDKModule.grow (LeapSDKModule.contents rs) j]>
              (LeapSDKModule.scope (LeapSDK w)));
       eventEmitter := eventEmitter w;
       subscriptions := subscriptions w;
       nextSubscription := nextSubscription w;
       awaiting := awaiting w;
       nextPromise := nextPromise w;
       ui := foldl (fun u c => heard (onChunk c) (eventEmitter w) u) (ui w)
               (LeapSDKModule.chunkEvents rs) |}.
Proof.
  revert w j. induction rs as [|r rs IH]; intros w j Hi Hj.
  - simpl. rewrite list_insert_id by done. rewrite with_jobs_id.
    by destruct w.
  - unfold emitAll in *. simpl.
    unfold step at 2. unfold LeapSDKModule.step. rewrite Hi.
    unfold LeapSDKModule.react. rewrite Hj.
    assert (Hlt : i < length (LeapSDKModule.scope (LeapSDK w)))
      by (by eapply lookup_lt_Some).
    destruct r as [text|shown|]; simpl.
    + erewrite IH; [|simpl; by apply list_lookup_insert_eq|done].
      simpl. by rewrite list_insert_insert_eq.
    + erewrite IH; [|simpl; by apply list_lookup_insert_eq|done].
      simpl. by rewrite list_insert_insert_eq.
    + erewrite IH; [|simpl; by apply list_lookup_insert_eq|done].
      simpl. by rewrite list_insert_insert_eq.
Qed.

End WrapperStreams.

Section Chat.
Import Vendor ChatScreen.

Lemma responseId_not_welcome clock : ticking clock -> "1" <> responseId clock.
Proof.
  intros [H1 H2] E. unfold responseId in E.
  change "1" with (pretty 1%N) in E. apply (inj pretty) in E. lia.
Qed.

Lemma responseId_not_user clock :
  ticking clock -> pretty (now1 clock) <> responseId clock.
Proof.
  intros [H1 H2] E. unfold responseId in E. apply (inj pretty) in E. lia.
Qed.

(** In the message list of the turn, only the response has the identifier
    the callbacks look for. *)
Lemma retext_turn date v clock f t :
  ticking clock ->
  retext (responseId clock) f (turn date v clock t) = turn date v clock (f t).
Proof.
  intros H. unfold retext, turn. simpl.
  rewrite decide_False by by apply responseId_not_welcome.
  rewrite decide_False by by apply responseId_not_user.
  by rewrite decide_True.
Qed.

Lemma opened_spec date0 date runner conversation v clock :
  trim v <> "" ->
  opened date0 date runner conversation v clock =
    {| leapLiquidAI := ready;
       sdk := streaming date runner conversation v clock "" "" |}.
Proof.
  intros Hv. unfold opened, handleSend. simpl.
  rewrite bool_decide_eq_false_2 by done. reflexivity.
Qed.

Lemma chat_emitAll i rs c :
  emitAll i rs c =
    {| leapLiquidAI := leapLiquidAI c;
       sdk := LeapSDKWrapper.emitAll i rs (sdk c) |}.
Proof.
  revert c. induction rs as [|r rs IH]; intros c; [by destruct c|].
  unfold emitAll, LeapSDKWrapper.emitAll in *. simpl. by rewrite IH.
Qed.

Lemma grow_spec ts inp p b s :
  LeapSDKModule.grow ts (LeapSDKModule.mkJob inp p b s)
  = LeapSDKModule.mkJob inp p (foldl String.app b ts) s.
Proof.
  revert b. induction ts as [|t ts IH]; intros b; [done|].
  unfold LeapSDKModule.grow in *. simpl. apply IH.
Qed.

(** Each chunk the listeners of the turn hear is appended to the text of
    the response. *)
Lemma heard_chunks date v clock t cs st :
  ticking clock ->
  messages st = turn date v clock t ->
  foldl (fun u c =>
           LeapSDKWrapper.heard (onChunk c) (listeners (responseId clock)) u)
    st cs
  = setMessages
      (fun _ => turn date v clock (foldl String.app t (chunk_text <$> cs))) st.
Proof.
  intros Hc. revert t st. induction cs as [|c cs IH]; intros t st Hst.
  - simpl. rewrite <-Hst. by destruct st.
  - simpl. rewrite (IH (t +:+ chunk_text c)); [done|].
    simpl. rewrite Hst.
    by apply (retext_turn date v clock (fun t0 => t0 +:+ chunk_text c)).
Qed.

Lemma streaming_emitAll date runner conversation v clock t b rs :
  ticking clock ->
  LeapSDKWrapper.emitAll 0 rs (streaming date runner conversation v clock t b)
  = streaming date runner conversation v clock
      (foldl String.app t (chunk_text <$> LeapSDKModule.chunkEvents rs))
      (foldl String.app b (LeapSDKModule.contents rs)).
Proof.
  intros Hc.
  rewrite (emitAll_spec rs _ 0
             (LeapSDKModule.mkJob (trim v) 0 b LeapSDKModule.Active))
    by done.
  unfold streaming. simpl. rewrite grow_spec.
  by rewrite (heard_chunks date v clock t).
Qed.

(** The completion event replaces the text of the response, and the
    settlement of the promise ends the turn. *)
Lemma streaming_completion m date runner conversation v clock t b full :
  ticking clock ->
  LeapSDKWrapper.deliverAll
    [ sendEvent (onComplete {| complete_text := full |}); resolve 0 full ]
    (LeapSDKWrapper.with_LeapSDK m
       (streaming date runner conversation v clock t b))
  = {| LeapSDKWrapper.LeapSDK := m;
       LeapSDKWrapper.eventEmitter := [];
       LeapSDKWrapper.subscriptions := [];
       LeapSDKWrapper.nextSubscription := 3;
       LeapSDKWrapper.awaiting := [];
       LeapSDKWrapper.nextPromise := 1;
       LeapSDKWrapper.ui :=
         {| messages := turn date v clock full; inputText := "";
            isLoading := false; isInitialized := true;
            isInitializing := false; currentResponseId := None |} |}.
Proof.
  intros Hc. unfold LeapSDKWrapper.deliverAll. simpl.
  unfold LeapSDKWrapper.emit, LeapSDKWrapper.settle. simpl.
  f_equal; [done..|].
  unfold afterSend, setCurrentResponseId, setIsLoading, setMessages.
  cbn [messages inputText isLoading isInitialized isInitializing
       currentResponseId].
  by rewrite retext_turn.
Qed.

End Chat.

Section ChatRuns.
Import Vendor ChatScreen.

Lemma reach_ui {UI : Type} (u : UI) (w : LeapSDKWrapper.t UI) :
  LeapSDKWrapper.reachable w ->
  LeapSDKWrapper.reachable (LeapSDKWrapper.with_ui u w).
Proof. apply (LeapSDKWrapper.reach_update (fun _ => u)). Qed.

Lemma mount_reachable date : LeapSDKWrapper.reachable (sdk (mount date)).
Proof. constructor. Qed.

Lemma update_reachable f c :
  LeapSDKWrapper.reachable (sdk c) ->
  LeapSDKWrapper.reachable (sdk (update f c)).
Proof. intros H. by apply (LeapSDKWrapper.reach_update f). Qed.

Lemma step_reachable i s c :
  LeapSDKWrapper.reachable (sdk c) ->
  LeapSDKWrapper.reachable (sdk (step i s c)).
Proof. intros H. by apply LeapSDKWrapper.reach_step. Qed.

Lemma emitAll_reachable i rs c :
  LeapSDKWrapper.reachable (sdk c) ->
  LeapSDKWrapper.reachable (sdk (emitAll i rs c)).
Proof.
  revert c. induction rs as [|r rs IH]; intros c H; [done|].
  apply IH. by apply step_reachable.
Qed.

Lemma initialize_reachable path r s (w : LeapSDKWrapper.t State) :
  LeapSDKWrapper.reachable w ->
  LeapSDKWrapper.reachable (LeapLiquidAIService.initialize path r s w).1.2.
Proof.
  intros H. unfold LeapLiquidAIService.initialize.
  destruct (LeapLiquidAIService.isInitialized s); [done|].
  pose proof (LeapSDKWrapper.reach_loadModel
                (default LeapLiquidAIService.defaultModelPath path) r w H).
  by destruct (LeapSDKWrapper.loadModel _ r w) as [w' [?|msg]].
Qed.

Lemma createConversation_reachable r s (w : LeapSDKWrapper.t State) :
  LeapSDKWrapper.reachable w ->
  LeapSDKWrapper.reachable
    (LeapLiquidAIService.createConversation r s w).1.2.
Proof.
  intros H. unfold LeapLiquidAIService.createConversation.
  destruct (negb (LeapLiquidAIService.isInitialized s)); [done|].
  pose proof (LeapSDKWrapper.reach_createConversation r w H).
  by destruct (LeapSDKWrapper.createConversation r w) as [w' [?|msg]].
Qed.

Lemma initializeSDK_reachable isMounted load create date c :
  LeapSDKWrapper.reachable (sdk c) ->
  LeapSDKWrapper.reachable (sdk (initializeSDK isMounted load create date c)).
Proof.
  intros H. unfold initializeSDK.
  destruct (isInitialized (state c) || isInitializing (state c)); [done|].
  pose proof (initialize_reachable (Some "/data/local/tmp/leap/model.bundle")
                load (leapLiquidAI (update (setIsInitializing true) c)) _
                (update_reachable (setIsInitializing true) c H)) as H1.
  destruct (LeapLiquidAIService.initialize _ load _ _) as [[s w] [[]|msg]];
    simpl in H1.
  - pose proof (createConversation_reachable create s w H1) as H2.
    destruct (LeapLiquidAIService.createConversation create s w)
      as [[s' w'] [[]|msg]]; simpl in H2;
      destruct isMounted; simpl; 
      repeat apply reach_ui; done.
  - destruct isMounted; simpl;
      repeat apply reach_ui; done.
Qed.

Lemma handleSend_reachable clock c :
  LeapSDKWrapper.reachable (sdk c) ->
  LeapSDKWrapper.reachable (sdk (handleSend clock c)).
Proof.
  intros H. unfold handleSend.
  destruct (bool_decide _ || _ || _); [done|]. simpl.
  unfold LeapLiquidAIService.sendMessage.
  repeat case_match;
    [apply reach_ui..|apply LeapSDKWrapper.reach_generateResponse];
    repeat apply reach_ui; done.
Qed.

Lemma opened_reachable date0 date runner conversation v clock :
  LeapSDKWrapper.reachable
    (sdk (opened date0 date runner conversation v clock)).
Proof.
  apply handleSend_reachable, update_reachable, initializeSDK_reachable,
    mount_reachable.
Qed.

End ChatRuns.

Section Turn.
Import Vendor ChatScreen.

Lemma streamed_spec date0 date runner conversation v clock rs :
  trim v <> "" -> ticking clock ->
  emitAll 0 rs (opened date0 date runner conversation v clock) =
    {| leapLiquidAI := ready;
       sdk := streaming date runner conversation v clock
                (LeapSDKModule.concat
                   (chunk_text <$> LeapSDKModule.chunkEvents rs))
                (LeapSDKModule.concat (LeapSDKModule.contents rs)) |}.
Proof.
  intros Hv Hc. rewrite chat_emitAll, opened_spec by done. simpl.
  by rewrite streaming_emitAll.
Qed.

Lemma completes_effects date runner conversation v clock t b :
  LeapSDKModule.step 0 LeapSDKModule.completes
    (LeapSDKWrapper.LeapSDK (streaming date runner conversation v clock t b))
  = ({| LeapSDKModule.modelRunner := Some runner;
        LeapSDKModule.currentConversation := Some conversation;
        LeapSDKModule.generationJob := Some 0;
        LeapSDKModule.scope :=
          [LeapSDKModule.mkJob (trim v) 0 b LeapSDKModule.Completed] |},
     [ sendEvent (onComplete {| complete_text := b |}); resolve 0 b ]).
Proof. reflexivity. Qed.

Lemma completed_messages date runner conversation v clock t b :
  ticking clock ->
  messages
    (LeapSDKWrapper.ui
       (LeapSDKWrapper.step 0 LeapSDKModule.completes
          (streaming date runner conversation v clock t b)))
  = turn date v clock b.
Proof.
  intros Hc. unfold LeapSDKWrapper.step. rewrite completes_effects.
  by rewrite streaming_completion.
Qed.

(** The end of a turn that completes: what the bridge sends, and what the
    message list becomes. *)
Lemma turn_completion date0 date runner conversation v clock rs :
  trim v <> "" -> ticking clock ->
  let c := emitAll 0 rs (opened date0 date runner conversation v clock) in
  (LeapSDKModule.step 0 LeapSDKModule.completes
     (LeapSDKWrapper.LeapSDK (sdk c))).2
  = [ sendEvent
        (onComplete
           {| complete_text :=
                LeapSDKModule.concat (LeapSDKModule.contents rs) |});
      resolve 0 (LeapSDKModule.concat (LeapSDKModule.contents rs)) ] /\
  messages (state (step 0 LeapSDKModule.completes c))
  = turn date v clock (LeapSDKModule.concat (LeapSDKModule.contents rs)).
Proof.
  intros Hv Hc c. unfold c. rewrite streamed_spec by done. split.
  - reflexivity.
  - unfold step, state. cbn [sdk leapLiquidAI]. by apply completed_messages.
Qed.

Lemma string_length_app (a b : string) :
  String.length (a +:+ b) = String.length a + String.length b.
Proof. induction a as [|x a IH]; simpl; [done|]. by rewrite IH. Qed.

Lemma contents_shorter rs b t :
  String.length b <= String.length t ->
  String.length (foldl String.app b (LeapSDKModule.contents rs))
  <= String.length
       (foldl String.app t (chunk_text <$> LeapSDKModule.chunkEvents rs)).
Proof.
  revert b t. induction rs as [|[text|shown|] rs IH]; intros b t H; simpl.
  - done.
  - apply IH. rewrite !string_length_app. lia.
  - apply IH. rewrite string_length_app. lia.
  - by apply IH.
Qed.

End Turn.

(** C1. After a successful load, a conversation creation and a send, when
    the flow has emitted any responses [rs] and then completes, the message
    list is the welcome, the user's message and one assistant message whose
    text is the full text the completion carries; and whatever full text a
    completion carries, it replaces the text streamed so far. *)
Theorem completion_replaces_streamed_text
    (date0 date : N) (runner : Vendor.ModelRunner)
    (conversation : Vendor.Conversation) (v : string)
    (clock : ChatScreen.Clock) (rs : list Vendor.MessageResponse)
    (full : string) :
  ChatScreen.trim v <> "" -> ChatScreen.ticking clock ->
  let c := ChatScreen.emitAll 0 rs
             (ChatScreen.opened date0 date runner conversation v clock) in
  (LeapSDKModule.step 0 LeapSDKModule.completes
     (LeapSDKWrapper.LeapSDK (ChatScreen.sdk c))).2
  = [ sendEvent
        (onComplete
           {| complete_text :=
                LeapSDKModule.concat (LeapSDKModule.contents rs) |});
      resolve 0 (LeapSDKModule.concat (LeapSDKModule.contents rs)) ] /\
  ChatScreen.messages
    (ChatScreen.state (ChatScreen.step 0 LeapSDKModule.completes c))
  = ChatScreen.turn date v clock
      (LeapSDKModule.concat (LeapSDKModule.contents rs)) /\
  ChatScreen.messages
    (LeapSDKWrapper.ui
       (LeapSDKWrapper.deliverAll
          [ sendEvent (onComplete {| complete_text := full |});
            resolve 0 full ]
          (ChatScreen.sdk c)))
  = ChatScreen.turn date v clock full.
Proof.
  intros Hv Hc c.
  destruct (turn_completion date0 date runner conversation v clock rs Hv Hc)
    as [H1 H2].
  split; [exact H1|]. split; [exact H2|].
  unfold c. rewrite streamed_spec by done.
  exact (f_equal (fun w => ChatScreen.messages (LeapSDKWrapper.ui w))
             (streaming_completion
                (LeapSDKWrapper.LeapSDK
                   (ChatScreen.streaming date runner conversation v clock
                      (LeapSDKModule.concat
                         (chunk_text <$> LeapSDKModule.chunkEvents rs))
                      (LeapSDKModule.concat (LeapSDKModule.contents rs))))
                date runner conversation v clock
                (LeapSDKModule.concat
                   (chunk_text <$> LeapSDKModule.chunkEvents rs))
                (LeapSDKModule.concat (LeapSDKModule.contents rs))
                full Hc)).
Qed.

Lemma completion_replaces_streamed_text_witness :
  let clock := {| ChatScreen.now1 := 1700000000000;
                  ChatScreen.date1 := 1700000000000;
                  ChatScreen.now2 := 1700000000001;
                  ChatScreen.date2 := 1700000000001 |}%N in
  ChatScreen.trim "Hi" <> "" /\ ChatScreen.ticking clock /\
  ChatScreen.messages
    (ChatScreen.state
       (ChatScreen.step 0 LeapSDKModule.completes
          (ChatScreen.emitAll 0 [Vendor.Chunk "Hel"; Vendor.Chunk "lo"]
             (ChatScreen.opened 0 5 {| Vendor.bundle := "m" |}
                {| Vendor.history := [] |} "Hi" clock))))
  = [ ChatScreen.welcomeReady 5;
      {| ChatScreen.id := "1700000000000"; ChatScreen.text := "Hi";
         ChatScreen.role := ChatScreen.user;
         ChatScreen.timestamp := 1700000000000 |};
      {| ChatScreen.id := "1700000000002"; ChatScreen.text := "Hello";
         ChatScreen.role := ChatScreen.assistant;
         ChatScreen.timestamp := 1700000000001 |} ].
Proof.
  intros clock.
  assert (Hv : ChatScreen.trim "Hi" <> "") by (vm_compute; discriminate).
  assert (Hc : ChatScreen.ticking clock)
    by (unfold ChatScreen.ticking; simpl; lia).
  split; [exact Hv|]. split; [exact Hc|].
  exact (proj1 (proj2
    (completion_replaces_streamed_text 0 5 {| Vendor.bundle := "m" |}
       {| Vendor.history := [] |} "Hi" clock
       [Vendor.Chunk "Hel"; Vendor.Chunk "lo"] "Hello" Hv Hc))).
Defined.

Section Delivery.
Import LeapSDKWrapper.
Context {UI : Type}.
Implicit Types w : LeapSDKWrapper.t UI.

(** A call of [generateResponse] on an emitter without listeners, when there
    is a conversation: the new job is the last of the scope and in flight,
    and the only listener that hears chunks is the caller's. *)
Lemma generateResponse_fresh w input f onComplete onError k conversation :
  eventEmitter w = [] ->
  LeapSDKModule.currentConversation (LeapSDK w) = Some conversation ->
  let w' := generateResponse input (Some f) onComplete onError k w in
  ui w' = ui w /\
  LeapSDKModule.scope (LeapSDK w') !! length (LeapSDKModule.scope (LeapSDK w))
  = Some (LeapSDKModule.mkJob input (nextPromise w) "" LeapSDKModule.Active) /\
  forall c u, heard (onChunk c) (eventEmitter w') u = f c u.
Proof.
  intros He Hc. unfold generateResponse, LeapSDKModule.generateResponse.
  destruct onComplete as [g|], onError as [h|]; simpl; rewrite Hc, He; simpl;
    (split; [done|]); (split; [|done]);
    apply list_lookup_middle; unfold LeapSDKModule.cancel;
    destruct (LeapSDKModule.generationJob (LeapSDK w));
    by rewrite ?length_alter.
Qed.

End Delivery.

(** C2. In a turn that is not cancelled, the chunks reach the message list
    in the order the flow emits them: the text of the response is the texts
    of the emitted chunks appended from the first to the last; and whatever
    the caller's chunk callback does, it has been run once on each emitted
    chunk, in the order of emission, and on nothing else. *)
Theorem chunks_appended_in_emission_order
    (date0 date : N) (runner : Vendor.ModelRunner)
    (conversation : Vendor.Conversation) (v : string)
    (clock : ChatScreen.Clock) (rs : list Vendor.MessageResponse) :
  ChatScreen.trim v <> "" -> ChatScreen.ticking clock ->
  ChatScreen.messages
    (ChatScreen.state
       (ChatScreen.emitAll 0 rs
          (ChatScreen.opened date0 date runner conversation v clock)))
  = ChatScreen.turn date v clock
      (LeapSDKModule.concat (chunk_text <$> LeapSDKModule.chunkEvents rs)) /\
  forall (UI : Type) (w : LeapSDKWrapper.t UI) (input : string)
         (f : ChunkEvent -> UI -> UI) onComplete onError k conversation',
    LeapSDKWrapper.eventEmitter w = [] ->
    LeapSDKModule.currentConversation (LeapSDKWrapper.LeapSDK w)
      = Some conversation' ->
    LeapSDKWrapper.ui
      (LeapSDKWrapper.emitAll
         (length (LeapSDKModule.scope (LeapSDKWrapper.LeapSDK w))) rs
         (LeapSDKWrapper.generateResponse input (Some f) onComplete onError
            k w))
    = foldl (fun u c => f c u) (LeapSDKWrapper.ui w)
        (LeapSDKModule.chunkEvents rs).
Proof.
  intros Hv Hc. split.
  - by rewrite streamed_spec.
  - intros UI w input f onComplete onError k conversation' He Hconv.
    destruct (generateResponse_fresh w input f onComplete onError k
                conversation' He Hconv) as (Hu & Hj & Hf).
    erewrite emitAll_spec; [|exact Hj|done]. simpl. rewrite Hu.
    generalize (LeapSDKWrapper.ui w).
    induction (LeapSDKModule.chunkEvents rs) as [|c cs IH]; intros u; [done|].
    simpl. rewrite Hf. apply IH.
Qed.

Lemma chunks_appended_in_emission_order_witness :
  let clock := {| ChatScreen.now1 := 1700000000000;
                  ChatScreen.date1 := 1700000000000;
                  ChatScreen.now2 := 1700000000001;
                  ChatScreen.date2 := 1700000000001 |}%N in
  let rs := [ Vendor.Chunk "a"; Vendor.ReasoningChunk "b"; Vendor.Other;
              Vendor.Chunk "a"; Vendor.Chunk "c" ] in
  let w := (LeapSDKWrapper.createConversation
              (Vendor.Created {| Vendor.history := [] |})
              (LeapSDKWrapper.loadModel "/m"
                 (Vendor.Loaded {| Vendor.bundle := "m" |})
                 (LeapSDKWrapper.init ([] : list string))).1).1 in
  ChatScreen.trim "Hi" <> "" /\ ChatScreen.ticking clock /\
  LeapSDKWrapper.eventEmitter w = [] /\
  LeapSDKModule.currentConversation (LeapSDKWrapper.LeapSDK w)
    = Some {| Vendor.history := [] |} /\
  ChatScreen.text <$>
    ChatScreen.messages
      (ChatScreen.state
         (ChatScreen.emitAll 0 rs
            (ChatScreen.opened 0 5 {| Vendor.bundle := "m" |}
               {| Vendor.history := [] |} "Hi" clock)))
  = [ ChatScreen.text (ChatScreen.welcomeReady 5); "Hi"; "abac" ] /\
  LeapSDKWrapper.ui
    (LeapSDKWrapper.emitAll 0 rs
       (LeapSDKWrapper.generateResponse "Hi"
          (Some (fun c log => log ++ [chunk_text c])) None None
          (fun _ log => log) w))
  = ["a"; "b"; "a"; "c"].
Proof.
  intros clock rs w.
  assert (Hv : ChatScreen.trim "Hi" <> "") by (vm_compute; discriminate).
  assert (Hc : ChatScreen.ticking clock)
    by (unfold ChatScreen.ticking; simpl; lia).
  pose proof (chunks_appended_in_emission_order 0 5 {| Vendor.bundle := "m" |}
                {| Vendor.history := [] |} "Hi" clock rs Hv Hc) as [H1 H2].
  split; [exact Hv|]. split; [exact Hc|].
  split; [reflexivity|]. split; [reflexivity|]. split.
  - exact (f_equal (fmap ChatScreen.text) H1).
  - exact (H2 (list string) w "Hi" (fun c log => log ++ [chunk_text c])
             None None (fun _ log => log) {| Vendor.history := [] |}
             eq_refl eq_refl).
Defined.

(** C9. The full text of the completion event and of the resolved promise
    is the concatenation of the content chunks alone, while the text shown
    during streaming also holds the reasoning chunks; completion replaces
    the latter by the former, which is never longer and can be strictly
    shorter. *)
Theorem completion_text_omits_reasoning
    (date0 date : N) (runner : Vendor.ModelRunner)
    (conversation : Vendor.Conversation) (v : string)
    (clock : ChatScreen.Clock) (rs : list Vendor.MessageResponse) :
  ChatScreen.trim v <> "" -> ChatScreen.ticking clock ->
  let c := ChatScreen.emitAll 0 rs
             (ChatScreen.opened date0 date runner conversation v clock) in
  let full := LeapSDKModule.concat (LeapSDKModule.contents rs) in
  let shown :=
    LeapSDKModule.concat (chunk_text <$> LeapSDKModule.chunkEvents rs) in
  (LeapSDKModule.step 0 LeapSDKModule.completes
     (LeapSDKWrapper.LeapSDK (ChatScreen.sdk c))).2
  = [ sendEvent (onComplete {| complete_text := full |}); resolve 0 full ] /\
  ChatScreen.messages (ChatScreen.state c)
  = ChatScreen.turn date v clock shown /\
  ChatScreen.messages
    (ChatScreen.state (ChatScreen.step 0 LeapSDKModule.completes c))
  = ChatScreen.turn date v clock full /\
  String.length full <= String.length shown /\
  (exists rs',
     String.length (LeapSDKModule.concat (LeapSDKModule.contents rs'))
     < String.length
         (LeapSDKModule.concat
            (chunk_text <$> LeapSDKModule.chunkEvents rs'))).
Proof.
  intros Hv Hc c full shown.
  destruct (turn_completion date0 date runner conversation v clock rs Hv Hc)
    as [H1 H2].
  split; [exact H1|]. split; [|split; [exact H2|split]].
  - unfold c. by rewrite streamed_spec.
  - by apply contents_shorter.
  - exists [Vendor.ReasoningChunk "hmm"; Vendor.Chunk "Hi"]. vm_compute. lia.
Qed.

Lemma completion_text_omits_reasoning_witness :
  let clock := {| ChatScreen.now1 := 1700000000000;
                  ChatScreen.date1 := 1700000000000;
                  ChatScreen.now2 := 1700000000001;
                  ChatScreen.date2 := 1700000000001 |}%N in
  let rs := [Vendor.ReasoningChunk "hmm"; Vendor.Chunk "Hi"] in
  let c := ChatScreen.emitAll 0 rs
             (ChatScreen.opened 0 5 {| Vendor.bundle := "m" |}
                {| Vendor.history := [] |} "Hello?" clock) in
  ChatScreen.trim "Hello?" <> "" /\ ChatScreen.ticking clock /\
  ChatScreen.text <$> ChatScreen.messages (ChatScreen.state c)
  = [ ChatScreen.text (ChatScreen.welcomeReady 5); "Hello?"; "hmmHi" ] /\
  ChatScreen.text <$>
    ChatScreen.messages
      (ChatScreen.state (ChatScreen.step 0 LeapSDKModule.completes c))
  = [ ChatScreen.text (ChatScreen.welcomeReady 5); "Hello?"; "Hi" ].
Proof.
  intros clock rs c.
  assert (Hv : ChatScreen.trim "Hello?" <> "") by (vm_compute; discriminate).
  assert (Hc : ChatScreen.ticking clock)
    by (unfold ChatScreen.ticking; simpl; lia).
  pose proof (completion_text_omits_reasoning 0 5 {| Vendor.bundle := "m" |}
                {| Vendor.history := [] |} "Hello?" clock rs Hv Hc)
    as (_ & H2 & H3 & _).
  split; [exact Hv|]. split; [exact Hc|]. split.
  - exact (f_equal (fmap ChatScreen.text) H2).
  - exact (f_equal (fmap ChatScreen.text) H3).
Defined.


(** When no job is in flight, [generationJob?.cancel()] changes no job. *)
Lemma cancel_idle (m : LeapSDKModule.t) :
  (forall i, ~ LeapSDKModule.inFlight m i) ->
  LeapSDKModule.cancel (LeapSDKModule.generationJob m) (LeapSDKModule.scope m)
  = LeapSDKModule.scope m.
Proof.
  intros H. unfold LeapSDKModule.cancel.
  destruct (LeapSDKModule.generationJob m) as [g|]; [|done].
  apply list_eq. intros i. destruct (decide (g = i)) as [->|Hne].
  - rewrite list_lookup_alter_eq.
    destruct (LeapSDKModule.scope m !! i) as [j|] eqn:Hi; [|done]. simpl.
    f_equal. unfold LeapSDKModule.cancelJob.
    destruct (LeapSDKModule.state j) eqn:Hj; try done.
    destruct (H i). by exists j.
  - by rewrite list_lookup_alter_ne.
Qed.

(** C4. Once [cancelGeneration] has returned, the emitter has no listener
    left, so no event the bridge sends afterwards, chunk, completion or
    error, reaches a callback: the state of the caller, the message list
    with it, stays what it was before the call. When no job is in flight
    the call cancels nothing: no job changes, and if there is neither a
    current job nor a subscription the whole state is unchanged. *)
Theorem no_delivery_after_cancel
    {UI : Type} (w : LeapSDKWrapper.t UI) (thrown : option string)
    (es : list Event) :
  LeapSDKWrapper.reachable w ->
  let w' := (LeapSDKWrapper.cancelGeneration thrown w).1 in
  LeapSDKWrapper.eventEmitter w' = [] /\
  LeapSDKWrapper.subscriptions w' = [] /\
  LeapSDKWrapper.deliverAll (sendEvent <$> es) w' = w' /\
  LeapSDKWrapper.ui (LeapSDKWrapper.deliverAll (sendEvent <$> es) w')
  = LeapSDKWrapper.ui w /\
  ((forall i, ~ LeapSDKModule.inFlight (LeapSDKWrapper.LeapSDK w) i) ->
   LeapSDKModule.scope (LeapSDKWrapper.LeapSDK w')
   = LeapSDKModule.scope (LeapSDKWrapper.LeapSDK w)) /\
  (LeapSDKModule.generationJob (LeapSDKWrapper.LeapSDK w) = None ->
   LeapSDKWrapper.subscriptions w = [] ->
   LeapSDKWrapper.cancelGeneration None w = (w, Return true)).
Proof.
  intros Hr. apply reachable_subscribed in Hr. cbv zeta.
  pose proof (removeAll_subscribed w Hr) as He.
  unfold LeapSDKWrapper.cancelGeneration at 1 2 3 4 5.
  destruct (LeapSDKModule.cancelGeneration thrown
              (LeapSDKWrapper.LeapSDK (LeapSDKWrapper.removeAllListeners w)))
    as [m s] eqn:Em.
  cbn [fst LeapSDKWrapper.with_LeapSDK LeapSDKWrapper.eventEmitter
       LeapSDKWrapper.subscriptions LeapSDKWrapper.ui
       LeapSDKWrapper.LeapSDK] in *.
  split; [exact He|]. split; [done|]. split; [|split; [|split]].
  - by apply deliver_events_deaf.
  - by rewrite deliver_events_deaf.
  - intros Hidle. destruct thrown; simplify_eq/=; [done|].
    by apply cancel_idle.
  - intros Hg Hs. unfold LeapSDKWrapper.cancelGeneration,
      LeapSDKWrapper.removeAllListeners. simpl. rewrite Hs, Hg.
    destruct w as [[] ?]. simpl in *. by subst.
Qed.

Lemma no_delivery_after_cancel_witness :
  let clock := {| ChatScreen.now1 := 1700000000000;
                  ChatScreen.date1 := 1700000000000;
                  ChatScreen.now2 := 1700000000001;
                  ChatScreen.date2 := 1700000000001 |}%N in
  let c := ChatScreen.emitAll 0 [Vendor.Chunk "Hel"]
             (ChatScreen.opened 0 5 {| Vendor.bundle := "m" |}
                {| Vendor.history := [] |} "Hi" clock) in
  let es := [ onChunk {| chunk_text := "lo"; chunk_type := chunk |};
              onComplete {| complete_text := "Hello" |};
              onError {| error := "Error in generation: cancelled" |} ] in
  LeapSDKWrapper.reachable (ChatScreen.sdk c) /\
  ChatScreen.text <$>
    ChatScreen.messages
      (LeapSDKWrapper.ui
         (LeapSDKWrapper.deliverAll (sendEvent <$> es)
            (LeapSDKWrapper.cancelGeneration None (ChatScreen.sdk c)).1))
  = [ ChatScreen.text (ChatScreen.welcomeReady 5); "Hi"; "Hel" ].
Proof.
  intros clock c es.
  assert (Hr : LeapSDKWrapper.reachable (ChatScreen.sdk c))
    by apply emitAll_reachable, opened_reachable.
  split; [exact Hr|].
  pose proof (no_delivery_after_cancel (ChatScreen.sdk c) None es Hr)
    as (_ & _ & _ & H & _).
  exact (f_equal (fun u => ChatScreen.text <$> ChatScreen.messages u) H).
Defined.

Section ServiceFacts.
Import LeapLiquidAIService.
Context {UI : Type}.
Implicit Types w : LeapSDKWrapper.t UI.

Lemma with_LeapSDK_id w :
  LeapSDKWrapper.with_LeapSDK (LeapSDKWrapper.LeapSDK w) w = w.
Proof. by destruct w. Qed.

(** A failed [createConversation] changes neither the service nor the
    bridge. *)
Lemma createConversation_failure r s w s' w' msg :
  createConversation r s w = (s', w', Throw msg) -> s' = s /\ w' = w.
Proof.
  unfold createConversation, LeapSDKWrapper.createConversation,
    LeapSDKModule.createConversation.
  destruct (negb (isInitialized s)); [by intros [= <- <-]|].
  destruct (LeapSDKModule.modelRunner (LeapSDKWrapper.LeapSDK w));
    [destruct r|]; simpl; intros [= <- <-]; by rewrite ?with_LeapSDK_id.
Qed.

(** A failed [initialize] leaves the two flags and the bridge as they were,
    and [modelPath] set to the path that failed to load. *)
Lemma initialize_failure path r s w s' w' msg :
  initialize path r s w = (s', w', Throw msg) ->
  s' = {| isInitialized := false;
          modelPath := Some (default defaultModelPath path);
          conversationCreated := conversationCreated s |}
  /\ isInitialized s = false /\ w' = w.
Proof.
  unfold initialize, LeapSDKWrapper.loadModel, LeapSDKModule.loadModel.
  destruct (isInitialized s); [done|].
  destruct r; simpl; intros [= <- <-]; by rewrite ?with_LeapSDK_id.
Qed.

End ServiceFacts.

(** C6 (as the code has it). [initialize] on a service that is already
    initialized returns normally: it raises no error, changes neither the
    service nor anything behind the wrapper, and so does not load a second
    time, whatever the path. The guard is the service's: the bridge method
    [loadModel] has none, and whenever the vendor loads, it replaces the
    model runner and resolves. *)
Theorem initialize_again_returns_silently
    {UI : Type} (path : option string) (r : Vendor.LoadResult)
    (s : LeapLiquidAIService.t) (w : LeapSDKWrapper.t UI) :
  LeapLiquidAIService.isInitialized s = true ->
  LeapLiquidAIService.initialize path r s w = (s, w, Return tt) /\
  forall modelPath runner m,
    LeapSDKModule.loadModel modelPath (Vendor.Loaded runner) m
    = ({| LeapSDKModule.modelRunner := Some runner;
          LeapSDKModule.currentConversation :=
            LeapSDKModule.currentConversation m;
          LeapSDKModule.generationJob := LeapSDKModule.generationJob m;
          LeapSDKModule.scope := LeapSDKModule.scope m |}, Resolved true).
Proof.
  intros H. split; [|done]. unfold LeapLiquidAIService.initialize.
  by rewrite H.
Qed.

Lemma initialize_again_returns_silently_witness :
  let first := LeapLiquidAIService.initialize None
                 (Vendor.Loaded {| Vendor.bundle := "a" |})
                 LeapLiquidAIService.init (LeapSDKWrapper.init tt) in
  LeapLiquidAIService.isInitialized first.1.1 = true /\
  LeapLiquidAIService.initialize (Some "/other.bundle")
    (Vendor.Loaded {| Vendor.bundle := "b" |}) first.1.1 first.1.2
  = (first.1.1, first.1.2, Return tt).
Proof.
  intros first. split; [reflexivity|].
  apply (initialize_again_returns_silently (Some "/other.bundle")
           (Vendor.Loaded {| Vendor.bundle := "b" |}) first.1.1 first.1.2).
  reflexivity.
Defined.

(** C6, as stated, fails: a second [initialize] gives the caller no error. *)
Lemma initialize_again_gives_no_error :
  let first := LeapLiquidAIService.initialize None
                 (Vendor.Loaded {| Vendor.bundle := "a" |})
                 LeapLiquidAIService.init (LeapSDKWrapper.init tt) in
  first.2 = Return tt /\
  ~ exists msg,
      (LeapLiquidAIService.initialize None
         (Vendor.Loaded {| Vendor.bundle := "a" |}) first.1.1 first.1.2).2
      = Throw msg.
Proof. split; [reflexivity|]. by intros [msg H]. Qed.

(** C7. A failed [initialize] does not leave the service as it was:
    [modelPath], assigned before the load is awaited, keeps the path that
    failed. Evaluated on the fresh service, for a bundle the vendor cannot
    load. *)
Theorem failed_initialize_keeps_model_path :
  let before := LeapLiquidAIService.init in
  let '(after, w, r) :=
    LeapLiquidAIService.initialize (Some "/sdcard/missing.bundle")
      (Vendor.LeapModelLoadingException "file not found")
      before (LeapSDKWrapper.init tt) in
  r = Throw "Failed to load model: file not found" /\
  LeapLiquidAIService.modelPath before = None /\
  LeapLiquidAIService.modelPath after = Some "/sdcard/missing.bundle" /\
  after <> before.
Proof. by vm_compute. Qed.

(** C8 (as the code has it). [cleanup] resets the service exactly when the
    release behind it succeeds. When the release fails, the error is
    rethrown to the caller and the service and the bridge are left as they
    were; only the listeners of the wrapper are removed, in both cases. *)
Theorem cleanup_resets_on_success_only
    {UI : Type} (s : LeapLiquidAIService.t) (w : LeapSDKWrapper.t UI) :
  (LeapLiquidAIService.cleanup None s w).1.1 = LeapLiquidAIService.init /\
  (LeapLiquidAIService.cleanup None s w).2 = Return tt /\
  forall msg,
    LeapLiquidAIService.cleanup (Some msg) s w
    = (s, LeapSDKWrapper.removeAllListeners w,
       Throw ("Failed to cleanup: " +:+ msg)).
Proof.
  split; [done|]. split; [done|]. intros msg.
  unfold LeapLiquidAIService.cleanup, LeapSDKWrapper.cleanup.
  cbn -[LeapSDKWrapper.with_LeapSDK LeapSDKWrapper.removeAllListeners].
  by rewrite (with_LeapSDK_id (LeapSDKWrapper.removeAllListeners w)).
Qed.

(** C8, as stated, fails: after a cleanup whose release fails, the service
    is still initialized, with its conversation and its path. *)
Lemma failed_cleanup_leaves_service_initialized :
  let w := (LeapSDKWrapper.createConversation
              (Vendor.Created {| Vendor.history := [] |})
              (LeapSDKWrapper.loadModel "/m"
                 (Vendor.Loaded {| Vendor.bundle := "m" |})
                 (LeapSDKWrapper.init tt)).1).1 in
  let '(after, w', r) :=
    LeapLiquidAIService.cleanup (Some "release failed") ChatScreen.ready w in
  r = Throw "Failed to cleanup: release failed" /\
  LeapLiquidAIService.isInitialized after = true /\
  LeapLiquidAIService.conversationCreated after = true /\
  LeapLiquidAIService.modelPath after
    = Some "/data/local/tmp/leap/model.bundle" /\
  after <> LeapLiquidAIService.init /\
  LeapSDKModule.modelRunner (LeapSDKWrapper.LeapSDK w')
    = Some {| Vendor.bundle := "m" |}.
Proof. by vm_compute. Qed.

(** C10 (as the code has it). The bridge method [getHistory] that does not
    throw resolves with an empty array, whether or not there is a
    conversation and whatever its history holds; the service's
    [getHistory] throws when the service is not initialized, and otherwise
    returns that empty array or rethrows the bridge's error. No call yields
    a message. *)
Theorem getHistory_yields_no_message
    {UI : Type} (thrown : option string) (s : LeapLiquidAIService.t)
    (w : LeapSDKWrapper.t UI) (m : LeapSDKModule.t) :
  LeapSDKModule.getHistory None m = Resolved [] /\
  LeapLiquidAIService.getHistory thrown s w =
    (if LeapLiquidAIService.isInitialized s then
       match thrown with
       | None => Return []
       | Some msg => Throw ("Failed to get history: " +:+ msg)
       end
     else Throw LeapLiquidAIService.notInitialized).
Proof.
  split.
  - unfold LeapSDKModule.getHistory.
    by destruct (LeapSDKModule.currentConversation m).
  - unfold LeapLiquidAIService.getHistory, LeapSDKWrapper.getHistory,
      LeapSDKModule.getHistory.
    destruct (LeapLiquidAIService.isInitialized s); [|done]. simpl.
    destruct thrown; [done|].
    by destruct (LeapSDKModule.currentConversation (LeapSDKWrapper.LeapSDK w)).
Qed.

(** C10, as stated, fails: on a service that is not initialized,
    [getHistory] rejects instead of resolving with an empty array. *)
Lemma getHistory_rejects_before_initialize :
  LeapLiquidAIService.getHistory None LeapLiquidAIService.init
    (LeapSDKWrapper.init tt)
  = Throw "Leap Liquid AI is not initialized. Call initialize() first." /\
  LeapLiquidAIService.getHistory None LeapLiquidAIService.init
    (LeapSDKWrapper.init tt)
  <> Return [].
Proof. by split. Qed.

(** ** Two turns that do not complete *)

(** A turn whose flow throws: the first [onError] marks the response, the
    rejection resumes [handleSend], whose [catch] block rewrites the
    response and whose wrapper call has removed the listeners, and the
    second [onError] finds none. *)
Example faulted_turn :
  let clock := {| ChatScreen.now1 := 1700000000000;
                  ChatScreen.date1 := 1700000000000;
                  ChatScreen.now2 := 1700000000001;
                  ChatScreen.date2 := 1700000000001 |}%N in
  let c := ChatScreen.step 0 (LeapSDKModule.throws "boom")
             (ChatScreen.emitAll 0 [Vendor.Chunk "Hel"]
                (ChatScreen.opened 0 5 {| Vendor.bundle := "m" |}
                   {| Vendor.history := [] |} "Hi" clock)) in
  ChatScreen.text <$> ChatScreen.messages (ChatScreen.state c)
  = [ ChatScreen.text (ChatScreen.welcomeReady 5); "Hi";
      "Sorry, I encountered an error: Error in generation: boom" ] /\
  ChatScreen.isLoading (ChatScreen.state c) = false /\
  LeapSDKWrapper.eventEmitter (ChatScreen.sdk c) = [].
Proof. by vm_compute. Qed.

(** A turn cancelled through the service: the events of the cancelled job
    are not heard, but the rejection of its promise, which is no event,
    still resumes [handleSend], whose [catch] block rewrites the
    response. *)
Example cancelled_turn :
  let clock := {| ChatScreen.now1 := 1700000000000;
                  ChatScreen.date1 := 1700000000000;
                  ChatScreen.now2 := 1700000000001;
                  ChatScreen.date2 := 1700000000001 |}%N in
  let c := ChatScreen.emitAll 0 [Vendor.Chunk "Hel"]
             (ChatScreen.opened 0 5 {| Vendor.bundle := "m" |}
                {| Vendor.history := [] |} "Hi" clock) in
  let w := (LeapLiquidAIService.cancelGeneration None
              (ChatScreen.leapLiquidAI c) (ChatScreen.sdk c)).1 in
  let w' := LeapSDKWrapper.step 0 (LeapSDKModule.unwinds "cancelled") w in
  ChatScreen.text <$> ChatScreen.messages (LeapSDKWrapper.ui w)
  = [ ChatScreen.text (ChatScreen.welcomeReady 5); "Hi"; "Hel" ] /\
  ChatScreen.text <$> ChatScreen.messages (LeapSDKWrapper.ui w')
  = [ ChatScreen.text (ChatScreen.welcomeReady 5); "Hi";
      "Sorry, I encountered an error: Error in generation: cancelled" ].
Proof. by vm_compute. Qed.

(** * Further facts *)

(** ** Jobs of the bridge *)



(** X2. In every state the bridge reaches, [cancelGeneration] and [cleanup]
    that do not throw leave no job in flight, and [cleanup] leaves neither
    model runner nor conversation nor current job. *)
Theorem cancel_and_cleanup_stop_generation
    (cs : list LeapSDKModule.Call) (i : nat) :
  let m := LeapSDKModule.run cs in
  ~ LeapSDKModule.inFlight (LeapSDKModule.cancelGeneration None m).1 i /\
  ~ LeapSDKModule.inFlight (LeapSDKModule.cleanup None m).1 i /\
  LeapSDKModule.modelRunner (LeapSDKModule.cleanup None m).1 = None /\
  LeapSDKModule.currentConversation (LeapSDKModule.cleanup None m).1 = None /\
  LeapSDKModule.generationJob (LeapSDKModule.cleanup None m).1 = None.
Proof.
  intros m. pose proof (run_pointed cs) as Hp. fold m in Hp.
  split; [|split; [|done]].
  - intros (j & Hi & Hj). simpl in Hi. by destruct (cancel_quiet m i j).
  - intros (j & Hi & Hj). simpl in Hi. by destruct (cancel_quiet m i j).
Qed.

Section WrapperTurn.
Import LeapSDKWrapper.
Context {UI : Type}.
Implicit Types w : LeapSDKWrapper.t UI.

(** A call of [generateResponse] with its three callbacks, on a wrapper
    that holds nothing, when there is a conversation. *)
Lemma generateResponse_started w input f g h k conversation :
  eventEmitter w = [] -> subscriptions w = [] ->
  LeapSDKModule.currentConversation (LeapSDK w) = Some conversation ->
  generateResponse input (Some f) (Some g) (Some h) k w =
    {| LeapSDK :=
         LeapSDKModule.with_jobs (LeapSDK w)
           (Some (length (LeapSDKModule.scope (LeapSDK w))))
           (LeapSDKModule.cancel (LeapSDKModule.generationJob (LeapSDK w))
              (LeapSDKModule.scope (LeapSDK w))
            ++ [LeapSDKModule.mkJob input (nextPromise w) ""
                  LeapSDKModule.Active]);
       eventEmitter :=
         [ (nextSubscription w, chunkListener f);
           (S (nextSubscription w), completeListener g);
           (S (S (nextSubscription w)), errorListener h) ];
       subscriptions :=
         [ nextSubscription w; S (nextSubscription w);
           S (S (nextSubscription w)) ];
       nextSubscription := S (S (S (nextSubscription w)));
       awaiting := awaiting w ++ [(nextPromise w, k)];
       nextPromise := S (nextPromise w);
       ui := ui w |}.
Proof.
  intros He Hs Hc. unfold generateResponse, LeapSDKModule.generateResponse.
  simpl. rewrite Hc, He, Hs. simpl. do 3 f_equal.
  unfold LeapSDKModule.cancel.
  destruct (LeapSDKModule.generationJob (LeapSDK w)); by rewrite ?length_alter.
Qed.

Lemma started_job w input p :
  (LeapSDKModule.cancel (LeapSDKModule.generationJob (LeapSDK w))
     (LeapSDKModule.scope (LeapSDK w))
   ++ [LeapSDKModule.mkJob input p "" LeapSDKModule.Active])
  !! length (LeapSDKModule.scope (LeapSDK w))
  = Some (LeapSDKModule.mkJob input p "" LeapSDKModule.Active).
Proof.
  apply list_lookup_middle. unfold LeapSDKModule.cancel.
  destruct (LeapSDKModule.generationJob (LeapSDK w)); by rewrite ?length_alter.
Qed.

(** The listeners of one call, once its promise is settled, are gone, and
    so is the suspended call. *)
Lemma settle_own m a f g h p k r (u : UI) n :
  settle p r
    {| LeapSDK := m;
       eventEmitter := [ (a, chunkListener f); (S a, completeListener g);
                         (S (S a), errorListener h) ];
       subscriptions := [a; S a; S (S a)];
       nextSubscription := n; awaiting := [(p, k)];
       nextPromise := S p; ui := u |}
  = {| LeapSDK := m; eventEmitter := []; subscriptions := [];
       nextSubscription := n; awaiting := [];
       nextPromise := S p; ui := k r u |}.
Proof.
  unfold settle. simpl. rewrite decide_True by done. simpl.
  unfold forget, remove. simpl.
  rewrite !(filter_cons_False _ (a, _)) by (simpl; tauto).
  rewrite !(filter_cons_True _ (S a, _)) by (simpl; lia).
  rewrite !(filter_cons_True _ (S (S a), _)) by (simpl; lia).
  rewrite !(filter_cons_False _ (S a, _)) by (simpl; tauto).
  rewrite !(filter_cons_True _ (S (S a), _)) by (simpl; lia).
  rewrite !(filter_cons_False _ (S (S a), _)) by (simpl; tauto).
  rewrite (filter_cons_False _ (p, k)) by (simpl; tauto).
  done.
Qed.

Lemma deliver_completion_own m a f g h p k (u : UI) n full :
  deliverAll
    [ sendEvent (onComplete {| complete_text := full |}); resolve p full ]
    {| LeapSDK := m;
       eventEmitter := [ (a, chunkListener f); (S a, completeListener g);
                         (S (S a), errorListener h) ];
       subscriptions := [a; S a; S (S a)];
       nextSubscription := n; awaiting := [(p, k)];
       nextPromise := S p; ui := u |}
  = {| LeapSDK := m; eventEmitter := []; subscriptions := [];
       nextSubscription := n; awaiting := [];
       nextPromise := S p;
       ui := k (Return full) (g {| complete_text := full |} u) |}.
Proof.
  unfold deliverAll. cbn [foldl deliver]. unfold emit, with_ui, heard.
  cbn [foldl notify snd eventEmitter ui LeapSDK subscriptions
       nextSubscription awaiting nextPromise].
  apply settle_own.
Qed.

Lemma deliver_fault_own m a f g h p k (u : UI) n code msg :
  deliverAll
    [ sendEvent (onError {| error := msg |}); reject p code msg;
      sendEvent (onError {| error := msg |}); reject p code msg ]
    {| LeapSDK := m;
       eventEmitter := [ (a, chunkListener f); (S a, completeListener g);
                         (S (S a), errorListener h) ];
       subscriptions := [a; S a; S (S a)];
       nextSubscription := n; awaiting := [(p, k)];
       nextPromise := S p; ui := u |}
  = {| LeapSDK := m; eventEmitter := []; subscriptions := [];
       nextSubscription := n; awaiting := [];
       nextPromise := S p;
       ui := k (Throw msg) (h {| error := msg |} u) |}.
Proof.
  unfold deliverAll. cbn [foldl deliver]. unfold emit at 2.
  unfold with_ui, heard.
  cbn [foldl notify snd eventEmitter ui LeapSDK subscriptions
       nextSubscription awaiting nextPromise].
  rewrite settle_own. reflexivity.
Qed.

Lemma heard_own_chunks a f g h cs (u : UI) :
  foldl (fun u c =>
           heard (onChunk c)
             [ (a, chunkListener f); (S a, completeListener g);
               (S (S a), errorListener h) ] u) u cs
  = foldl (fun u c => f c u) u cs.
Proof. revert u. induction cs as [|c cs IH]; intros u; [done|]. apply IH. Qed.

Lemma insert_last {A : Type} (l : list A) (x y : A) n :
  n = length l -> <[n := y]> (l ++ [x]) = l ++ [y].
Proof.
  intros ->. rewrite insert_app_r_alt by done.
  by rewrite Nat.sub_diag.
Qed.

(** One whole call of [generateResponse] on a wrapper that holds nothing:
    the caller's chunk callback has run on each emitted chunk in order;
    then, when the flow completes, the completion callback on the full
    text, and the caller is resumed with it; when the flow throws, the
    error callback once, and the caller is resumed with the error. Either
    way the wrapper holds nothing again. *)
Lemma wrapper_turn w input f g h k conversation rs (ending : option string) :
  eventEmitter w = [] -> subscriptions w = [] -> awaiting w = [] ->
  LeapSDKModule.currentConversation (LeapSDK w) = Some conversation ->
  let n := length (LeapSDKModule.scope (LeapSDK w)) in
  let full := LeapSDKModule.concat (LeapSDKModule.contents rs) in
  let streamed := foldl (fun u c => f c u) (ui w)
                    (LeapSDKModule.chunkEvents rs) in
  step n (from_option LeapSDKModule.throws LeapSDKModule.completes ending)
    (emitAll n rs (generateResponse input (Some f) (Some g) (Some h) k w))
  = {| LeapSDK :=
         LeapSDKModule.with_jobs (LeapSDK w) (Some n)
           (LeapSDKModule.cancel (LeapSDKModule.generationJob (LeapSDK w))
              (LeapSDKModule.scope (LeapSDK w))
            ++ [LeapSDKModule.mkJob input (nextPromise w) full
                  LeapSDKModule.Completed]);
       eventEmitter := []; subscriptions := [];
       nextSubscription := S (S (S (nextSubscription w)));
       awaiting := []; nextPromise := S (nextPromise w);
       ui := match ending with
             | None =>
                 k (Return full) (g {| complete_text := full |} streamed)
             | Some msg =>
                 k (Throw ("Error in generation: " +:+ msg))
                   (h {| error := "Error in generation: " +:+ msg |}
                      streamed)
             end |}.
Proof.
  intros He Hs Ha Hc n full streamed.
  rewrite (generateResponse_started w input f g h k conversation) by done.
  rewrite Ha. cbn [app].
  erewrite emitAll_spec; [|apply started_job|done].
  cbn [LeapSDK eventEmitter subscriptions nextSubscription awaiting
       nextPromise ui LeapSDKModule.scope LeapSDKModule.generationJob
       LeapSDKModule.with_jobs].
  rewrite grow_spec, heard_own_chunks. fold streamed full.
  rewrite insert_last
    by (unfold LeapSDKModule.cancel;
        destruct (LeapSDKModule.generationJob (LeapSDK w));
        by rewrite ?length_alter).
  unfold step, LeapSDKModule.step.
  cbn [LeapSDK LeapSDKModule.scope LeapSDKModule.with_jobs
       LeapSDKModule.generationJob].
  rewrite list_lookup_middle
    by (unfold LeapSDKModule.cancel;
        destruct (LeapSDKModule.generationJob (LeapSDK w));
        by rewrite ?length_alter).
  destruct ending as [msg|]; cbn [from_option];
    unfold LeapSDKModule.react; cbn [LeapSDKModule.state];
    unfold LeapSDKModule.finish, LeapSDKModule.onCompletion,
      LeapSDKModule.catch, LeapSDKModule.errorMsg;
    cbn [Vendor.message LeapSDKModule.promise LeapSDKModule.responseBuilder
         app];
    rewrite insert_last
      by (unfold LeapSDKModule.cancel;
          destruct (LeapSDKModule.generationJob (LeapSDK w));
          by rewrite ?length_alter);
    unfold with_LeapSDK;
    cbn [LeapSDK eventEmitter subscriptions nextSubscription
         awaiting nextPromise ui].
  - by rewrite deliver_fault_own.
  - by rewrite deliver_completion_own.
Qed.

End WrapperTurn.

Section AnyTurn.
Import Vendor ChatScreen.

(** A message list with no message of identifier [rid] is left alone. *)
Lemma retext_absent rid f ms : rid ∉ id <$> ms -> retext rid f ms = ms.
Proof.
  induction ms as [|m ms IH]; [done|]. simpl. intros H.
  apply not_elem_of_cons in H as [Hm Hms].
  rewrite decide_False by done. f_equal. by apply IH.
Qed.

(** In the message list of a turn that is fresh, only the response has the
    identifier the callbacks look for. *)
Lemma retext_last c v clock f t :
  fresh clock c ->
  retext (responseId clock) f
    (messages (state c) ++ [userMessage v clock; assistantMessage clock t])
  = messages (state c) ++ [userMessage v clock; assistantMessage clock (f t)].
Proof.
  intros [Hle Hf]. unfold retext at 1. rewrite map_app.
  fold (retext (responseId clock) f (messages (state c))).
  rewrite retext_absent by done. f_equal. simpl.
  rewrite decide_False
    by (unfold responseId; intros E; apply (inj pretty) in E; lia).
  by rewrite decide_True.
Qed.

(** The state of the screen once [handleSend] has added the two messages of
    the turn, with [t] as the text of the response. *)
Lemma streamed_state c v clock cs t st :
  fresh clock c ->
  messages st
  = messages (state c) ++ [userMessage v clock; assistantMessage clock t] ->
  foldl (fun u ch =>
           setMessages (retext (responseId clock)
                          (fun t0 => t0 +:+ chunk_text ch)) u) st cs
  = setMessages
      (fun _ => messages (state c)
                ++ [userMessage v clock;
                    assistantMessage clock
                      (foldl String.app t (chunk_text <$> cs))]) st.
Proof.
  intros Hf. revert t st. induction cs as [|ch cs IH]; intros t st Hst.
  - simpl. rewrite <-Hst. by destruct st.
  - simpl. rewrite (IH (t +:+ chunk_text ch)); [done|].
    simpl. rewrite Hst.
    by apply (retext_last c v clock (fun t0 => t0 +:+ chunk_text ch)).
Qed.

(** What [handleSend] does on an idle screen. *)
Lemma send_spec c v clock :
  idle c -> trim v <> "" ->
  send v clock c =
    {| leapLiquidAI := leapLiquidAI c;
       sdk :=
         LeapSDKWrapper.generateResponse (trim v)
           (Some (fun chunk =>
                    setMessages (retext (responseId clock)
                                   (fun t => t +:+ chunk_text chunk))))
           (Some (fun complete =>
                    setMessages (retext (responseId clock)
                                   (fun _ => complete_text complete))))
           (Some (fun err =>
                    setMessages (retext (responseId clock)
                                   (fun _ => "Error: " +:+ error err))))
           (afterSend (responseId clock))
           (LeapSDKWrapper.with_ui
              {| messages := messages (state c)
                             ++ [userMessage v clock;
                                 assistantMessage clock ""];
                 inputText := ""; isLoading := true; isInitialized := true;
                 isInitializing := isInitializing (state c);
                 currentResponseId := Some (responseId clock) |}
              (sdk c)) |}.
Proof.
  intros (Hl & Hi & Hsi & Hsc & _) Hv. unfold send, handleSend, type, state.
  cbn [update sdk leapLiquidAI LeapSDKWrapper.ui LeapSDKWrapper.with_ui
       setInputText inputText isLoading isInitialized].
  unfold state in Hl, Hi. rewrite Hl, Hi.
  rewrite bool_decide_eq_false_2 by done. cbn [orb negb].
  unfold LeapLiquidAIService.sendMessage. rewrite Hsi, Hsc. cbn [negb].
  f_equal. unfold responseId. f_equal. unfold LeapSDKWrapper.with_ui.
  cbn [LeapSDKWrapper.LeapSDK LeapSDKWrapper.eventEmitter
       LeapSDKWrapper.subscriptions LeapSDKWrapper.nextSubscription
       LeapSDKWrapper.awaiting LeapSDKWrapper.nextPromise LeapSDKWrapper.ui].
  f_equal.
  unfold setMessages, setCurrentResponseId, setIsLoading, setInputText.
  cbn [messages inputText isLoading isInitialized isInitializing
       currentResponseId].
  rewrite Hi, <-app_assoc. reflexivity.
Qed.

End AnyTurn.

Section AnyTurnEnds.
Import Vendor ChatScreen.

(** The end of a turn sent from an idle screen, whether its flow completes
    ([ending = None]) or throws. *)
Lemma any_turn c v clock rs (ending : option string) :
  idle c -> trim v <> "" -> fresh clock c ->
  let n := length (LeapSDKModule.scope (LeapSDKWrapper.LeapSDK (sdk c))) in
  let full := LeapSDKModule.concat (LeapSDKModule.contents rs) in
  let c' :=
    step n (from_option LeapSDKModule.throws LeapSDKModule.completes ending)
      (emitAll n rs (send v clock c)) in
  state c' =
    {| messages :=
         messages (state c)
         ++ [ userMessage v clock;
              assistantMessage clock
                match ending with
                | None => full
                | Some msg =>
                    "Sorry, I encountered an error: Error in generation: "
                    +:+ msg
                end ];
       inputText := ""; isLoading := false; isInitialized := true;
       isInitializing := isInitializing (state c);
       currentResponseId := None |}
  /\ idle c'.
Proof.
  intros Hidle Hv Hf n full c'.
  pose proof Hidle as (Hl & Hi & Hsi & Hsc & [conv Hconv] & He & Hs & Ha).
  pose proof (wrapper_turn
                (LeapSDKWrapper.with_ui
                   {| messages := messages (state c)
                                  ++ [userMessage v clock;
                                      assistantMessage clock ""];
                      inputText := ""; isLoading := true;
                      isInitialized := true;
                      isInitializing := isInitializing (state c);
                      currentResponseId := Some (responseId clock) |}
                   (sdk c))
                (trim v)
                (fun chunk =>
                   setMessages (retext (responseId clock)
                                  (fun t => t +:+ chunk_text chunk)))
                (fun complete =>
                   setMessages (retext (responseId clock)
                                  (fun _ => complete_text complete)))
                (fun err =>
                   setMessages (retext (responseId clock)
                                  (fun _ => "Error: " +:+ error err)))
                (afterSend (responseId clock)) conv rs ending
                He Hs Ha Hconv) as Hw.
  cbv zeta in Hw.
  cbn [LeapSDKWrapper.with_ui LeapSDKWrapper.ui LeapSDKWrapper.LeapSDK
       LeapSDKWrapper.nextPromise LeapSDKWrapper.nextSubscription] in Hw.
  rewrite (streamed_state c v clock _ "") in Hw by done.
  fold n full in Hw.
  assert (Hc' : c' = {| leapLiquidAI := leapLiquidAI c; sdk := _ |})
    by (unfold c'; rewrite chat_emitAll, send_spec by done; unfold step;
        cbn [sdk leapLiquidAI]; rewrite Hw; reflexivity).
  rewrite Hc'. split.
  - unfold state. cbn [sdk LeapSDKWrapper.ui].
    destruct ending as [msg|];
      unfold afterSend, setCurrentResponseId, setIsLoading, setMessages,
        orElse;
      cbn [messages inputText isLoading isInitialized isInitializing
           currentResponseId error complete_text];
      rewrite ?decide_False by done;
      change (LeapSDKWrapper.ui (sdk c)) with (state c);
      by rewrite !retext_last.
  - unfold idle, state. cbn [sdk leapLiquidAI].
    cbn [LeapSDKWrapper.ui LeapSDKWrapper.LeapSDK
         LeapSDKWrapper.eventEmitter LeapSDKWrapper.subscriptions
         LeapSDKWrapper.awaiting LeapSDKModule.with_jobs
         LeapSDKModule.currentConversation].
    rewrite Hconv.
    destruct ending; unfold afterSend; cbn; eauto 10.
Qed.

End AnyTurnEnds.

(** X3. Turns compose. From any idle screen, sending a non-blank input
    whose identifiers are new and whose flow emits [rs] and completes
    appends exactly two messages, the user's trimmed input and the response
    with the concatenated content chunks as its text, clears the input and
    leaves the screen idle again, ready for the next turn. *)
Theorem turn_from_idle_completes
    (c : ChatScreen.t) (v : string) (clock : ChatScreen.Clock)
    (rs : list Vendor.MessageResponse) :
  ChatScreen.idle c -> ChatScreen.trim v <> "" -> ChatScreen.fresh clock c ->
  let n := length (LeapSDKModule.scope
                     (LeapSDKWrapper.LeapSDK (ChatScreen.sdk c))) in
  let c' := ChatScreen.step n LeapSDKModule.completes
              (ChatScreen.emitAll n rs (ChatScreen.send v clock c)) in
  ChatScreen.messages (ChatScreen.state c')
  = ChatScreen.messages (ChatScreen.state c)
    ++ [ ChatScreen.userMessage v clock;
         ChatScreen.assistantMessage clock
           (LeapSDKModule.concat (LeapSDKModule.contents rs)) ] /\
  ChatScreen.inputText (ChatScreen.state c') = "" /\
  ChatScreen.currentResponseId (ChatScreen.state c') = None /\
  ChatScreen.idle c'.
Proof.
  intros Hi Hv Hf n c'.
  destruct (any_turn c v clock rs None Hi Hv Hf) as [Hst Hidle].
  cbn [from_option] in Hst, Hidle. fold n in Hst, Hidle. fold c' in Hst, Hidle.
  rewrite Hst. split; [done|]. split; [done|]. split; [done|]. exact Hidle.
Qed.

Lemma turn_from_idle_completes_witness :
  let clock1 := {| ChatScreen.now1 := 1700000000000;
                   ChatScreen.date1 := 1700000000000;
                   ChatScreen.now2 := 1700000000001;
                   ChatScreen.date2 := 1700000000001 |}%N in
  let clock2 := {| ChatScreen.now1 := 1700000009000;
                   ChatScreen.date1 := 1700000009000;
                   ChatScreen.now2 := 1700000009000;
                   ChatScreen.date2 := 1700000009001 |}%N in
  let c1 := ChatScreen.step 0 LeapSDKModule.completes
              (ChatScreen.emitAll 0 [Vendor.Chunk "Hel"; Vendor.Chunk "lo"]
                 (ChatScreen.opened 0 5 {| Vendor.bundle := "m" |}
                    {| Vendor.history := [] |} "Hi" clock1)) in
  let c2 := ChatScreen.step 1 LeapSDKModule.completes
              (ChatScreen.emitAll 1
                 [Vendor.ReasoningChunk "?"; Vendor.Chunk "Fine"]
                 (ChatScreen.send " And you? " clock2 c1)) in
  ChatScreen.idle c1 /\ ChatScreen.trim " And you? " <> "" /\
  ChatScreen.fresh clock2 c1 /\
  ChatScreen.text <$> ChatScreen.messages (ChatScreen.state c2)
  = [ ChatScreen.text (ChatScreen.welcomeReady 5); "Hi"; "Hello";
      "And you?"; "Fine" ].
Proof.
  intros clock1 clock2 c1 c2.
  assert (Hi : ChatScreen.idle c1)
    by (repeat split; try reflexivity; by eexists).
  assert (Hv : ChatScreen.trim " And you? " <> "")
    by (vm_compute; discriminate).
  assert (Hf : ChatScreen.fresh clock2 c1).
  { split; [unfold clock2; simpl; lia|]. vm_compute.
    intros H. repeat (apply elem_of_cons in H as [H|H]; [discriminate|]).
    by apply elem_of_nil in H. }
  split; [exact Hi|]. split; [exact Hv|]. split; [exact Hf|].
  exact (f_equal (fmap ChatScreen.text)
           (proj1 (turn_from_idle_completes c1 " And you? " clock2
                     [Vendor.ReasoningChunk "?"; Vendor.Chunk "Fine"]
                     Hi Hv Hf))).
Defined.

(** X4. From any idle screen, a turn whose flow throws [msg] after emitting
    [rs] ends with the response replaced by the apology carrying the
    bridge's error message, whatever was streamed, and with the screen idle
    again: it does not stay loading and no listener is left. *)
Theorem turn_from_idle_faults
    (c : ChatScreen.t) (v : string) (clock : ChatScreen.Clock)
    (rs : list Vendor.MessageResponse) (msg : string) :
  ChatScreen.idle c -> ChatScreen.trim v <> "" -> ChatScreen.fresh clock c ->
  let n := length (LeapSDKModule.scope
                     (LeapSDKWrapper.LeapSDK (ChatScreen.sdk c))) in
  let c' := ChatScreen.step n (LeapSDKModule.throws msg)
              (ChatScreen.emitAll n rs (ChatScreen.send v clock c)) in
  ChatScreen.messages (ChatScreen.state c')
  = ChatScreen.messages (ChatScreen.state c)
    ++ [ ChatScreen.userMessage v clock;
         ChatScreen.assistantMessage clock
           ("Sorry, I encountered an error: Error in generation: "
            +:+ msg) ] /\
  ChatScreen.isLoading (ChatScreen.state c') = false /\
  ChatScreen.idle c'.
Proof.
  intros Hi Hv Hf n c'.
  destruct (any_turn c v clock rs (Some msg) Hi Hv Hf) as [Hst Hidle].
  cbn [from_option] in Hst, Hidle. fold n in Hst, Hidle. fold c' in Hst, Hidle.
  rewrite Hst. split; [done|]. split; [done|]. exact Hidle.
Qed.

Lemma turn_from_idle_faults_witness :
  let clock := {| ChatScreen.now1 := 1700000000000;
                  ChatScreen.date1 := 1700000000000;
                  ChatScreen.now2 := 1700000000001;
                  ChatScreen.date2 := 1700000000001 |}%N in
  let c := ChatScreen.initializeSDK true
             (Vendor.Loaded {| Vendor.bundle := "m" |})
             (Vendor.Created {| Vendor.history := [] |}) 5
             (ChatScreen.mount 0) in
  let c' := ChatScreen.step 0 (LeapSDKModule.throws "out of memory")
              (ChatScreen.emitAll 0 [Vendor.Chunk "Hel"]
                 (ChatScreen.send "Hi" clock c)) in
  ChatScreen.idle c /\ ChatScreen.trim "Hi" <> "" /\
  ChatScreen.fresh clock c /\
  ChatScreen.text <$> ChatScreen.messages (ChatScreen.state c')
  = [ ChatScreen.text (ChatScreen.welcomeReady 5); "Hi";
      "Sorry, I encountered an error: Error in generation: out of memory" ].
Proof.
  intros clock c c'.
  assert (Hi : ChatScreen.idle c)
    by (repeat split; try reflexivity; by eexists).
  assert (Hv : ChatScreen.trim "Hi" <> "") by (vm_compute; discriminate).
  assert (Hf : ChatScreen.fresh clock c).
  { split; [unfold clock; simpl; lia|]. vm_compute.
    intros H. repeat (apply elem_of_cons in H as [H|H]; [discriminate|]).
    by apply elem_of_nil in H. }
  split; [exact Hi|]. split; [exact Hv|]. split; [exact Hf|].
  exact (f_equal (fmap ChatScreen.text)
           (proj1 (turn_from_idle_faults c "Hi" clock [Vendor.Chunk "Hel"]
                     "out of memory" Hi Hv Hf))).
Defined.

Section Handles.
Import LeapSDKWrapper.
Context {UI : Type}.
Implicit Types w : LeapSDKWrapper.t UI.

(** The model runner and the conversation the bridge holds. *)
Lemma deliverAll_LeapSDK out w : LeapSDK (deliverAll out w) = LeapSDK w.
Proof.
  revert w. induction out as [|e out IH]; intros w; [done|].
  unfold deliverAll in *. simpl. rewrite IH.
  destruct e; simpl; [done|unfold settle..];
    by destruct (reaction _ _).
Qed.

Lemma addListener_LeapSDK l w : LeapSDK (addListener l w) = LeapSDK w.
Proof. by destruct l. Qed.

Lemma bridge_generateResponse_handles input p (m : LeapSDKModule.t) :
  LeapSDKModule.modelRunner (LeapSDKModule.generateResponse input p m).1
  = LeapSDKModule.modelRunner m /\
  LeapSDKModule.currentConversation
    (LeapSDKModule.generateResponse input p m).1
  = LeapSDKModule.currentConversation m.
Proof.
  unfold LeapSDKModule.generateResponse.
  by destruct (LeapSDKModule.currentConversation m) eqn:E.
Qed.

Lemma generateResponse_handles input oc ocp oe k w :
  LeapSDKModule.modelRunner
    (LeapSDK (generateResponse input oc ocp oe k w))
  = LeapSDKModule.modelRunner (LeapSDK w) /\
  LeapSDKModule.currentConversation
    (LeapSDK (generateResponse input oc ocp oe k w))
  = LeapSDKModule.currentConversation (LeapSDK w).
Proof.
  unfold generateResponse.
  set (w3 := addListener _ (addListener _ (addListener _ w))).
  assert (Hw : LeapSDK w3 = LeapSDK w)
    by (unfold w3; by rewrite !addListener_LeapSDK).
  pose proof (bridge_generateResponse_handles input (nextPromise w3)
                (LeapSDK w3)) as H.
  destruct (LeapSDKModule.generateResponse input (nextPromise w3)
              (LeapSDK w3)) as [m out].
  rewrite deliverAll_LeapSDK. simpl in *. by rewrite <-Hw.
Qed.

Lemma step_handles i s w :
  LeapSDKModule.modelRunner (LeapSDK (step i s w))
  = LeapSDKModule.modelRunner (LeapSDK w) /\
  LeapSDKModule.currentConversation (LeapSDK (step i s w))
  = LeapSDKModule.currentConversation (LeapSDK w).
Proof.
  unfold step, LeapSDKModule.step.
  destruct (LeapSDKModule.scope (LeapSDK w) !! i) as [j|]; simpl.
  - destruct (LeapSDKModule.react s j). by rewrite deliverAll_LeapSDK.
  - done.
Qed.

Lemma cancelGeneration_handles thrown w :
  LeapSDKModule.modelRunner (LeapSDK (cancelGeneration thrown w).1)
  = LeapSDKModule.modelRunner (LeapSDK w) /\
  LeapSDKModule.currentConversation (LeapSDK (cancelGeneration thrown w).1)
  = LeapSDKModule.currentConversation (LeapSDK w).
Proof. by destruct thrown. Qed.

End Handles.

Section ServiceRuns.
Import LeapLiquidAIService.
Context {UI : Type}.

Lemma consistent_ext (s : t) (w w' : LeapSDKWrapper.t UI) :
  LeapSDKModule.modelRunner (LeapSDKWrapper.LeapSDK w')
  = LeapSDKModule.modelRunner (LeapSDKWrapper.LeapSDK w) ->
  LeapSDKModule.currentConversation (LeapSDKWrapper.LeapSDK w')
  = LeapSDKModule.currentConversation (LeapSDKWrapper.LeapSDK w) ->
  consistent (s, w) -> consistent (s, w').
Proof. unfold consistent. simpl. by intros -> ->. Qed.

Lemma initialize_consistent path r s (w : LeapSDKWrapper.t UI) :
  consistent (s, w) -> consistent (initialize path r s w).1.
Proof.
  intros H. unfold initialize.
  destruct (isInitialized s) eqn:Hs; [exact H|].
  unfold consistent in *. simpl in H. rewrite Hs in H.
  destruct H as (H1 & H2 & H3 & H4).
  assert (conversationCreated s = false) as Hc
    by (destruct (conversationCreated s); [by specialize (H3 eq_refl)|done]).
  rewrite Hc in H2.
  unfold LeapSDKWrapper.loadModel, LeapSDKModule.loadModel.
  destruct r; simpl; rewrite ?Hc; (split; [|split; [|split]]);
    try done; try (split; intros; [by eexists|done]); by eexists.
Qed.

Lemma createConversation_consistent r s (w : LeapSDKWrapper.t UI) :
  consistent (s, w) -> consistent (createConversation r s w).1.
Proof.
  intros H. unfold createConversation.
  destruct (isInitialized s) eqn:Hs; simpl; [|exact H].
  unfold consistent in *. simpl in H. rewrite Hs in H.
  destruct H as (H1 & H2 & H3 & H4).
  unfold LeapSDKWrapper.createConversation, LeapSDKModule.createConversation.
  destruct (LeapSDKModule.modelRunner (LeapSDKWrapper.LeapSDK w)) eqn:Hm;
    [destruct r|]; simpl; rewrite ?Hm, ?Hs; (split; [|split; [|split]]);
    try done; try (split; intros; [by eexists|done]).
Qed.

Lemma cleanup_consistent thrown s (w : LeapSDKWrapper.t UI) :
  consistent (s, w) -> consistent (cleanup thrown s w).1.
Proof.
  intros H. unfold cleanup, LeapSDKWrapper.cleanup.
  destruct thrown; simpl.
  - by apply (consistent_ext s w).
  - unfold consistent. simpl. repeat split; try done; by intros [? ?].
Qed.

Lemma exec_consistent (sw : t * LeapSDKWrapper.t UI) (c : Call) :
  consistent sw -> consistent (exec sw c).
Proof.
  destruct sw as [s w]. intros H.
  destruct c as [path r|r|um cb k|thrown|thrown|i sig]; simpl.
  - by apply initialize_consistent.
  - by apply createConversation_consistent.
  - unfold sendMessage. repeat case_match;
      try (by apply (consistent_ext s w)).
    apply (consistent_ext s w); [apply generateResponse_handles..|done].
  - unfold cancelGeneration.
    pose proof (cancelGeneration_handles thrown w) as [? ?].
    destruct (LeapSDKWrapper.cancelGeneration thrown w) as [w' [?|?]];
      by apply (consistent_ext s w).
  - by apply cleanup_consistent.
  - apply (consistent_ext s w); [apply step_handles..|done].
Qed.

Lemma run_consistent (u : UI) (cs : list Call) : consistent (run u cs).
Proof.
  unfold run. induction cs as [|c cs IH] using rev_ind.
  - unfold consistent. simpl. repeat split; try done; by intros [? ?].
  - rewrite foldl_snoc. by apply exec_consistent.
Qed.

End ServiceRuns.

(** X5. However the service is used, its flags tell what the bridge holds:
    it is initialized exactly when the bridge has a model runner, it has a
    conversation exactly when the bridge has one, a conversation implies a
    model, and an initialized service has stored its path. So a
    [sendMessage] that passes the guards of the service is never rejected
    by the bridge for a missing conversation: the bridge launches a job. *)
Theorem service_flags_match_bridge
    {UI : Type} (u : UI) (cs : list (LeapLiquidAIService.Call (UI := UI)))
    (input : string) (promise : nat) :
  let sw := LeapLiquidAIService.run u cs in
  LeapLiquidAIService.consistent sw /\
  (LeapLiquidAIService.conversationCreated sw.1 = true ->
   (LeapSDKModule.generateResponse input promise
      (LeapSDKWrapper.LeapSDK sw.2)).2 = []).
Proof.
  intros sw. pose proof (run_consistent u cs) as H. fold sw in H.
  split; [exact H|]. destruct H as (_ & H2 & _). intros Hc.
  apply H2 in Hc as [conv Hc]. unfold LeapSDKModule.generateResponse.
  by rewrite Hc.
Qed.

Lemma service_flags_match_bridge_witness :
  let cs := [ LeapLiquidAIService.Initialize None
                (Vendor.Loaded {| Vendor.bundle := "m" |});
              LeapLiquidAIService.CreateConversation
                (Vendor.Created {| Vendor.history := [] |});
              LeapLiquidAIService.Cleanup (Some "busy") ] in
  LeapLiquidAIService.conversationCreated
    (LeapLiquidAIService.run tt cs).1 = true /\
  (LeapSDKModule.generateResponse "Hi" 0
     (LeapSDKWrapper.LeapSDK (LeapLiquidAIService.run tt cs).2)).2 = [].
Proof.
  intros cs. split; [reflexivity|].
  exact (proj2 (service_flags_match_bridge tt cs "Hi" 0) eq_refl).
Defined.

Section Streaming.
Import Vendor ChatScreen.

Lemma streamed_isLoading rid cs st :
  isLoading
    (foldl (fun u ch =>
              setMessages (retext rid (fun t0 => t0 +:+ chunk_text ch)) u)
       st cs)
  = isLoading st.
Proof.
  revert st. induction cs as [|ch cs IH]; intros st; [done|].
  simpl. by rewrite IH.
Qed.

(** The state of the screen in the middle of a turn sent when idle. *)
Lemma mid_turn_state c v clock rs :
  idle c -> trim v <> "" ->
  state (emitAll (length (LeapSDKModule.scope
                            (LeapSDKWrapper.LeapSDK (sdk c)))) rs
           (send v clock c))
  = foldl (fun u ch =>
             setMessages (retext (responseId clock)
                            (fun t0 => t0 +:+ chunk_text ch)) u)
      {| messages := messages (state c)
                     ++ [userMessage v clock; assistantMessage clock ""];
         inputText := ""; isLoading := true; isInitialized := true;
         isInitializing := isInitializing (state c);
         currentResponseId := Some (responseId clock) |}
      (LeapSDKModule.chunkEvents rs).
Proof.
  intros Hidle Hv.
  pose proof Hidle as (Hl & Hi & Hsi & Hsc & [conv Hconv] & He & Hs & Ha).
  rewrite chat_emitAll, send_spec by done.
  unfold state at 1. cbn [sdk].
  pose proof (generateResponse_started
                (LeapSDKWrapper.with_ui
                   {| messages := messages (state c)
                                  ++ [userMessage v clock;
                                      assistantMessage clock ""];
                      inputText := ""; isLoading := true;
                      isInitialized := true;
                      isInitializing := isInitializing (state c);
                      currentResponseId := Some (responseId clock) |}
                   (sdk c))
                (trim v)
                (fun chunk =>
                   setMessages (retext (responseId clock)
                                  (fun t => t +:+ chunk_text chunk)))
                (fun complete =>
                   setMessages (retext (responseId clock)
                                  (fun _ => complete_text complete)))
                (fun err =>
                   setMessages (retext (responseId clock)
                                  (fun _ => "Error: " +:+ error err)))
                (afterSend (responseId clock)) conv He Hs Hconv) as Hg.
  cbn [LeapSDKWrapper.with_ui LeapSDKWrapper.ui LeapSDKWrapper.LeapSDK
       LeapSDKWrapper.nextPromise LeapSDKWrapper.nextSubscription
       LeapSDKWrapper.awaiting] in Hg.
  rewrite Hg.
  erewrite emitAll_spec; [|apply (started_job (sdk c))|done].
  cbn [LeapSDKWrapper.ui LeapSDKWrapper.eventEmitter].
  by rewrite heard_own_chunks.
Qed.

End Streaming.

(** X6. While a turn is streaming, the screen is loading and pressing send
    does nothing, whatever has been typed meanwhile: the screen never
    starts a second generation before the first has ended. *)
Theorem no_second_turn_while_streaming
    (c : ChatScreen.t) (v : string) (clock : ChatScreen.Clock)
    (rs : list Vendor.MessageResponse) (v' : string)
    (clock' : ChatScreen.Clock) :
  ChatScreen.idle c -> ChatScreen.trim v <> "" ->
  let n := length (LeapSDKModule.scope
                     (LeapSDKWrapper.LeapSDK (ChatScreen.sdk c))) in
  let mid := ChatScreen.emitAll n rs (ChatScreen.send v clock c) in
  ChatScreen.isLoading (ChatScreen.state mid) = true /\
  ChatScreen.handleSend clock' (ChatScreen.type v' mid)
  = ChatScreen.type v' mid.
Proof.
  intros Hidle Hv n mid.
  pose proof Hidle as (Hl & Hi & Hsi & Hsc & [conv Hconv] & He & Hs & Ha).
  assert (Hload : ChatScreen.isLoading (ChatScreen.state mid) = true)
    by (unfold mid, n; rewrite mid_turn_state by done;
        by rewrite streamed_isLoading).
  split; [exact Hload|].
  unfold ChatScreen.handleSend, ChatScreen.type, ChatScreen.state in *.
  cbn [ChatScreen.update ChatScreen.sdk LeapSDKWrapper.ui
       LeapSDKWrapper.with_ui ChatScreen.setInputText ChatScreen.isLoading].
  rewrite Hload. by rewrite orb_true_r.
Qed.

Lemma no_second_turn_while_streaming_witness :
  let clock := {| ChatScreen.now1 := 1700000000000;
                  ChatScreen.date1 := 1700000000000;
                  ChatScreen.now2 := 1700000000001;
                  ChatScreen.date2 := 1700000000001 |}%N in
  let c := ChatScreen.initializeSDK true
             (Vendor.Loaded {| Vendor.bundle := "m" |})
             (Vendor.Created {| Vendor.history := [] |}) 5
             (ChatScreen.mount 0) in
  let mid := ChatScreen.emitAll 0 [Vendor.Chunk "Hel"]
               (ChatScreen.send "Hi" clock c) in
  ChatScreen.idle c /\ ChatScreen.trim "Hi" <> "" /\
  ChatScreen.handleSend clock (ChatScreen.type "again" mid)
  = ChatScreen.type "again" mid.
Proof.
  intros clock c mid.
  assert (Hi : ChatScreen.idle c)
    by (repeat split; try reflexivity; by eexists).
  assert (Hv : ChatScreen.trim "Hi" <> "") by (vm_compute; discriminate).
  split; [exact Hi|]. split; [exact Hv|].
  exact (proj2 (no_second_turn_while_streaming c "Hi" clock
                  [Vendor.Chunk "Hel"] "again" clock Hi Hv)).
Defined.

(** X7. [cleanup] is idempotent: a second successful cleanup changes
    nothing and returns normally; and a cleanup that succeeds after one
    that failed ends in the state a single successful cleanup ends in. *)
Theorem cleanup_twice
    {UI : Type} (s : LeapLiquidAIService.t) (w : LeapSDKWrapper.t UI)
    (msg : string) :
  let once := LeapLiquidAIService.cleanup None s w in
  let failed := LeapLiquidAIService.cleanup (Some msg) s w in
  LeapLiquidAIService.cleanup None once.1.1 once.1.2
  = (once.1.1, once.1.2, Return tt) /\
  failed.2 = Throw ("Failed to cleanup: " +:+ msg) /\
  LeapLiquidAIService.cleanup None failed.1.1 failed.1.2 = once.
Proof.
  intros once failed. split; [reflexivity|]. split; reflexivity.
Qed.

(** X8. After a successful cleanup the service refuses everything but a
    new [initialize]: [createConversation], [sendMessage] and [getHistory]
    throw the not-initialized error without reaching the bridge, which
    itself would reject a generation for want of a conversation; and
    [initialize] loads again, after which a conversation has to be created
    anew before a message can be sent. *)
Theorem after_cleanup
    {UI : Type} (s : LeapLiquidAIService.t) (w : LeapSDKWrapper.t UI)
    (create : Vendor.CreateResult) (userMessage : string)
    (callbacks : option (LeapLiquidAIService.GenerationCallbacks UI))
    (k : LeapSDKWrapper.Continuation UI) (thrown : option string)
    (promise : nat) (path : option string) (runner : Vendor.ModelRunner) :
  let s1 := (LeapLiquidAIService.cleanup None s w).1.1 in
  let w1 := (LeapLiquidAIService.cleanup None s w).1.2 in
  let again :=
    LeapLiquidAIService.initialize path (Vendor.Loaded runner) s1 w1 in
  LeapLiquidAIService.createConversation create s1 w1
  = (s1, w1, Throw LeapLiquidAIService.notInitialized) /\
  LeapLiquidAIService.sendMessage userMessage callbacks k s1 w1
  = LeapSDKWrapper.with_ui
      (k (Throw LeapLiquidAIService.notInitialized) (LeapSDKWrapper.ui w))
      w1 /\
  LeapLiquidAIService.getHistory thrown s1 w1
  = Throw LeapLiquidAIService.notInitialized /\
  LeapSDKModule.generateResponse userMessage promise
    (LeapSDKWrapper.LeapSDK w1)
  = (LeapSDKWrapper.LeapSDK w1,
     [reject promise "NO_CONVERSATION"
        "No conversation created. Call createConversation first."]) /\
  again.2 = Return tt /\
  LeapLiquidAIService.isInitialized again.1.1 = true /\
  LeapSDKModule.modelRunner (LeapSDKWrapper.LeapSDK again.1.2)
  = Some runner /\
  LeapLiquidAIService.sendMessage userMessage callbacks k
    again.1.1 again.1.2
  = LeapSDKWrapper.with_ui
      (k (Throw LeapLiquidAIService.noConversation) (LeapSDKWrapper.ui w))
      again.1.2.
Proof. by repeat split. Qed.

(** X9. A failed [createConversation], whether the service refuses it or
    the bridge rejects it, changes neither the service nor anything behind
    the wrapper: the call can be retried from the same state. *)
Theorem failed_createConversation_changes_nothing
    {UI : Type} (r : Vendor.CreateResult) (s s' : LeapLiquidAIService.t)
    (w w' : LeapSDKWrapper.t UI) (msg : string) :
  LeapLiquidAIService.createConversation r s w = (s', w', Throw msg) ->
  s' = s /\ w' = w.
Proof.
  unfold LeapLiquidAIService.createConversation,
    LeapSDKWrapper.createConversation, LeapSDKModule.createConversation.
  destruct (negb (LeapLiquidAIService.isInitialized s));
    [by intros [= <- <-]|].
  destruct (LeapSDKModule.modelRunner (LeapSDKWrapper.LeapSDK w));
    [destruct r|]; simpl; intros [= <- <-]; by rewrite ?with_LeapSDK_id.
Qed.

Lemma failed_createConversation_changes_nothing_witness :
  let w := (LeapSDKWrapper.loadModel "/m"
              (Vendor.Loaded {| Vendor.bundle := "m" |})
              (LeapSDKWrapper.init tt)).1 in
  let s := {| LeapLiquidAIService.isInitialized := true;
              LeapLiquidAIService.modelPath := Some "/m";
              LeapLiquidAIService.conversationCreated := false |} in
  LeapLiquidAIService.createConversation
    (Vendor.CreateException "no memory") s w
  = (s, w, Throw "Failed to create conversation: no memory") /\
  s = s /\ w = w.
Proof.
  intros w s. split; [reflexivity|].
  exact (failed_createConversation_changes_nothing
           (Vendor.CreateException "no memory")
           s s w w "Failed to create conversation: no memory" eq_refl).
Defined.



Section Callbacks.
Import ChatScreen.

Lemma retext_keeps rid f ms :
  id <$> retext rid f ms = id <$> ms /\
  role <$> retext rid f ms = role <$> ms /\
  timestamp <$> retext rid f ms = timestamp <$> ms.
Proof.
  unfold retext.
  repeat split; induction ms as [|m ms IH]; simpl; try done;
    (f_equal; [by destruct (decide (id m = rid))|done]).
Qed.

End Callbacks.

(** X11. The callbacks [handleSend] subscribes, and what it does after
    [sendMessage], only ever rewrite texts: they keep the number, order,
    identifiers, roles and timestamps of the messages, and when no message
    has the identifier of their turn any more they leave the list as it
    is. *)
Theorem callbacks_only_rewrite_text
    (rid : string) (e : Event) (r : Completion string)
    (st : ChatScreen.State) :
  let heard := LeapSDKWrapper.heard e (ChatScreen.listeners rid) st in
  let after := ChatScreen.afterSend rid r st in
  (ChatScreen.id <$> ChatScreen.messages heard
   = ChatScreen.id <$> ChatScreen.messages st /\
   ChatScreen.role <$> ChatScreen.messages heard
   = ChatScreen.role <$> ChatScreen.messages st /\
   ChatScreen.timestamp <$> ChatScreen.messages heard
   = ChatScreen.timestamp <$> ChatScreen.messages st) /\
  (ChatScreen.id <$> ChatScreen.messages after
   = ChatScreen.id <$> ChatScreen.messages st /\
   ChatScreen.role <$> ChatScreen.messages after
   = ChatScreen.role <$> ChatScreen.messages st /\
   ChatScreen.timestamp <$> ChatScreen.messages after
   = ChatScreen.timestamp <$> ChatScreen.messages st) /\
  (rid ∉ ChatScreen.id <$> ChatScreen.messages st ->
   heard = st /\
   ChatScreen.messages after = ChatScreen.messages st).
Proof.
  intros heard after. split; [|split].
  - unfold heard. destruct e; apply retext_keeps.
  - unfold after. destruct r; [done|apply retext_keeps].
  - intros Hf. split.
    + unfold heard. destruct e; unfold LeapSDKWrapper.heard; simpl;
        unfold ChatScreen.setMessages; rewrite retext_absent by done;
        by destruct st.
    + unfold after. destruct r; [done|]. simpl. by rewrite retext_absent.
Qed.

Lemma callbacks_only_rewrite_text_witness :
  let st := {| ChatScreen.messages := [ChatScreen.welcome 0];
               ChatScreen.inputText := ""; ChatScreen.isLoading := false;
               ChatScreen.isInitialized := true;
               ChatScreen.isInitializing := false;
               ChatScreen.currentResponseId := None |} in
  ("1700000000002" ∉ (ChatScreen.id <$> ChatScreen.messages st)) /\
  LeapSDKWrapper.heard
    (onChunk {| chunk_text := "late"; chunk_type := chunk |})
    (ChatScreen.listeners "1700000000002") st = st.
Proof.
  intros st.
  assert (H : "1700000000002" ∉ ChatScreen.id <$> ChatScreen.messages st).
  { intros H. apply elem_of_cons in H as [H|H]; [discriminate|].
    by apply elem_of_nil in H. }
  split; [exact H|].
  exact (proj1 (proj2 (proj2
           (callbacks_only_rewrite_text "1700000000002"
              (onChunk {| chunk_text := "late"; chunk_type := chunk |})
              (Return "") st)) H)).
Defined.

Section ScreenRuns.
Import Vendor ChatScreen.

Lemma Forall_filter_keep {A : Type} (P Q : A -> Prop)
    `{forall x, Decision (Q x)} (l : list A) :
  Forall P l -> Forall P (filter Q l).
Proof.
  rewrite !Forall_forall. intros HP x Hx.
  apply list_elem_of_filter in Hx as [_ Hx]. by apply HP.
Qed.

Lemma heard_steady e ls :
  Forall (fun kl => forall e, steady (LeapSDKWrapper.notify e kl.2)) ls ->
  steady (LeapSDKWrapper.heard e ls).
Proof.
  intros Hls u. revert u. induction Hls as [|kl ls Hkl _ IH]; intros u.
  - done.
  - unfold LeapSDKWrapper.heard in *. simpl. rewrite IH. apply Hkl.
Qed.

Lemma reaction_steady p (a : list (nat * LeapSDKWrapper.Continuation State))
    k r :
  Forall (fun pk => forall r, steady (pk.2 r)) a ->
  LeapSDKWrapper.reaction p a = Some k -> steady (k r).
Proof.
  induction 1 as [|[q k'] a Hk _ IH]; simpl; [done|].
  destruct (decide (q = p)); [intros [= <-]; apply Hk|apply IH].
Qed.

Lemma removeAll_tame w : tame w -> tame (LeapSDKWrapper.removeAllListeners w).
Proof.
  intros [H1 H2]. split; [|done]. simpl. rewrite removeAll_filter.
  by apply Forall_filter_keep.
Qed.

Lemma deliver_tame w e :
  tame w ->
  tame (LeapSDKWrapper.deliver w e) /\
  isInitialized (LeapSDKWrapper.ui (LeapSDKWrapper.deliver w e))
  = isInitialized (LeapSDKWrapper.ui w).
Proof.
  intros Hw. pose proof Hw as [H1 H2].
  assert (Hs : forall p r,
    tame (LeapSDKWrapper.settle p r w) /\
    isInitialized (LeapSDKWrapper.ui (LeapSDKWrapper.settle p r w))
    = isInitialized (LeapSDKWrapper.ui w)).
  { intros p r. unfold LeapSDKWrapper.settle.
    destruct (LeapSDKWrapper.reaction p (LeapSDKWrapper.awaiting w))
      as [k|] eqn:Hk; [|done].
    destruct (removeAll_tame w Hw) as [H1' H2']. split.
    - split; [exact H1'|]. simpl. by apply Forall_filter_keep.
    - simpl. by apply (reaction_steady p _ k r H2). }
  destruct e as [e|p v|p code msg]; [|apply Hs..].
  split; [exact Hw|]. simpl. by apply heard_steady.
Qed.

Lemma deliverAll_tame out w :
  tame w ->
  tame (LeapSDKWrapper.deliverAll out w) /\
  isInitialized (LeapSDKWrapper.ui (LeapSDKWrapper.deliverAll out w))
  = isInitialized (LeapSDKWrapper.ui w).
Proof.
  revert w. induction out as [|e out IH]; intros w Hw; [done|].
  destruct (deliver_tame w e Hw) as [H1 H2].
  destruct (IH _ H1) as [H3 H4]. split; [exact H3|].
  unfold LeapSDKWrapper.deliverAll in *. simpl. by rewrite H4.
Qed.

Lemma step_tame i s w :
  tame w ->
  tame (LeapSDKWrapper.step i s w) /\
  isInitialized (LeapSDKWrapper.ui (LeapSDKWrapper.step i s w))
  = isInitialized (LeapSDKWrapper.ui w).
Proof.
  intros Hw. unfold LeapSDKWrapper.step.
  destruct (LeapSDKModule.step i s (LeapSDKWrapper.LeapSDK w)) as [m out].
  by apply (deliverAll_tame out (LeapSDKWrapper.with_LeapSDK m w)).
Qed.

Lemma retext_steady rid f : steady (setMessages (retext rid f)).
Proof. done. Qed.

Lemma afterSend_steady rid r : steady (afterSend rid r).
Proof. intros u. by destruct r. Qed.

Lemma addListener_tame l w :
  (forall l', l = Some l' -> forall e, steady (LeapSDKWrapper.notify e l')) ->
  tame w -> tame (LeapSDKWrapper.addListener l w).
Proof.
  intros Hl [H1 H2]. destruct l as [l'|]; [|done]. split; [|done]. simpl.
  apply Forall_app_2; [done|]. constructor; [|done]. simpl.
  by apply Hl.
Qed.

Lemma sendMessage_kept um rid s w :
  LeapLiquidAIService.consistent (s, w) -> tame w ->
  let w' := LeapLiquidAIService.sendMessage um (Some (callbacks rid))
              (afterSend rid) s w in
  LeapLiquidAIService.consistent (s, w') /\ tame w' /\
  isInitialized (LeapSDKWrapper.ui w') = isInitialized (LeapSDKWrapper.ui w).
Proof.
  intros Hc Hw w'. unfold w', LeapLiquidAIService.sendMessage.
  destruct (negb (LeapLiquidAIService.isInitialized s));
    [split; [by apply (consistent_ext s w)|split; [done|]];
     apply afterSend_steady|].
  destruct (negb (LeapLiquidAIService.conversationCreated s));
    [split; [by apply (consistent_ext s w)|split; [done|]];
     apply afterSend_steady|].
  split.
  { apply (consistent_ext s w); [apply generateResponse_handles..|done]. }
  unfold LeapSDKWrapper.generateResponse. cbn [mbind option_bind callbacks
    LeapLiquidAIService.onChunk LeapLiquidAIService.onComplete
    LeapLiquidAIService.onError fmap option_fmap option_map].
  set (w3 := LeapSDKWrapper.addListener _
               (LeapSDKWrapper.addListener _
                  (LeapSDKWrapper.addListener _ w))).
  assert (H3 : tame w3).
  { unfold w3. repeat apply addListener_tame; try done;
      intros l' [= <-] e u; by destruct e. }
  assert (Hu : LeapSDKWrapper.ui w3 = LeapSDKWrapper.ui w) by done.
  destruct (LeapSDKModule.generateResponse um (LeapSDKWrapper.nextPromise w3)
              (LeapSDKWrapper.LeapSDK w3)) as [m out].
  rewrite <-Hu.
  apply (deliverAll_tame out
           {| LeapSDKWrapper.LeapSDK := m;
              LeapSDKWrapper.eventEmitter := LeapSDKWrapper.eventEmitter w3;
              LeapSDKWrapper.subscriptions := LeapSDKWrapper.subscriptions w3;
              LeapSDKWrapper.nextSubscription :=
                LeapSDKWrapper.nextSubscription w3;
              LeapSDKWrapper.awaiting :=
                LeapSDKWrapper.awaiting w3
                ++ [(LeapSDKWrapper.nextPromise w3, afterSend rid)];
              LeapSDKWrapper.nextPromise :=
                S (LeapSDKWrapper.nextPromise w3);
              LeapSDKWrapper.ui := LeapSDKWrapper.ui w3 |}).
  destruct H3 as [H31 H32]. split; [done|]. simpl.
  apply Forall_app_2; [done|]. constructor; [|done]. simpl.
  intros r. apply afterSend_steady.
Qed.

Lemma kept_ui c st :
  isInitialized st = isInitialized (state c) ->
  kept c ->
  kept {| leapLiquidAI := leapLiquidAI c;
          sdk := LeapSDKWrapper.with_ui st (sdk c) |}.
Proof.
  intros Hst (Hc & Hg & Ht). split; [|split].
  - by apply (consistent_ext _ (sdk c)).
  - unfold gated, state in *. simpl. rewrite Hst. exact Hg.
  - exact Ht.
Qed.

Lemma update_kept f c : steady f -> kept c -> kept (update f c).
Proof. intros Hf Hk. by apply (kept_ui c (f (state c)) (Hf _)). Qed.

Lemma handleSend_kept clock c : kept c -> kept (handleSend clock c).
Proof.
  intros Hk. unfold handleSend.
  destruct (bool_decide _ || _ || _); [done|].
  cbv zeta. cbn [leapLiquidAI update].
  match goal with
  | |- kept {| leapLiquidAI := _;
               sdk := LeapLiquidAIService.sendMessage _ _ _ _ ?w0 |} =>
      set (st := LeapSDKWrapper.ui w0);
      change w0 with (LeapSDKWrapper.with_ui st (sdk c))
  end.
  assert (Hst : isInitialized st = isInitialized (state c)) by done.
  pose proof (kept_ui c st Hst Hk) as (Hc & Hg & Ht).
  cbn [leapLiquidAI sdk] in Hc, Ht.
  destruct (sendMessage_kept (trim (inputText (state c)))
              (pretty (now2 clock + 1)%N) (leapLiquidAI c)
              (LeapSDKWrapper.with_ui st (sdk c)) Hc Ht) as (Hc' & Ht' & Hi').
  split; [exact Hc'|split; [|exact Ht']].
  unfold gated, state in *. cbn [sdk leapLiquidAI] in *.
  rewrite Hi'. exact Hg.
Qed.

Lemma step_kept i s c : kept c -> kept (step i s c).
Proof.
  intros (Hc & Hg & Ht). destruct (step_tame i s (sdk c) Ht) as [Ht' Hi'].
  split; [|split; [|exact Ht']].
  - apply (consistent_ext _ (sdk c)); [apply step_handles..|done].
  - unfold gated, state in *. simpl. rewrite Hi'. exact Hg.
Qed.

Lemma type_kept v c : kept c -> kept (type v c).
Proof. intros Hk. by apply (kept_ui c). Qed.

Lemma tame_ext (w w' : LeapSDKWrapper.t State) :
  LeapSDKWrapper.eventEmitter w' = LeapSDKWrapper.eventEmitter w ->
  LeapSDKWrapper.awaiting w' = LeapSDKWrapper.awaiting w ->
  tame w -> tame w'.
Proof. unfold tame. by intros -> ->. Qed.

Lemma service_initialize_shape path r s (w : LeapSDKWrapper.t State) :
  let res := LeapLiquidAIService.initialize path r s w in
  LeapSDKWrapper.eventEmitter res.1.2 = LeapSDKWrapper.eventEmitter w /\
  LeapSDKWrapper.awaiting res.1.2 = LeapSDKWrapper.awaiting w /\
  LeapSDKWrapper.ui res.1.2 = LeapSDKWrapper.ui w /\
  (forall x, res.2 = Return x ->
     LeapLiquidAIService.isInitialized res.1.1 = true).
Proof.
  unfold LeapLiquidAIService.initialize.
  destruct (LeapLiquidAIService.isInitialized s) eqn:Hs; [done|].
  unfold LeapSDKWrapper.loadModel. by destruct r.
Qed.

Lemma service_createConversation_shape r s (w : LeapSDKWrapper.t State) :
  let res := LeapLiquidAIService.createConversation r s w in
  LeapSDKWrapper.eventEmitter res.1.2 = LeapSDKWrapper.eventEmitter w /\
  LeapSDKWrapper.awaiting res.1.2 = LeapSDKWrapper.awaiting w /\
  LeapSDKWrapper.ui res.1.2 = LeapSDKWrapper.ui w /\
  (forall x, res.2 = Return x ->
     LeapLiquidAIService.isInitialized res.1.1 = true /\
     LeapLiquidAIService.conversationCreated res.1.1 = true).
Proof.
  unfold LeapLiquidAIService.createConversation.
  destruct (LeapLiquidAIService.isInitialized s) eqn:Hs; [|done]. simpl.
  unfold LeapSDKWrapper.createConversation, LeapSDKModule.createConversation.
  destruct (LeapSDKModule.modelRunner _); [destruct r|]; by simpl.
Qed.

Lemma initializeSDK_kept isMounted load create date c :
  kept c -> kept (initializeSDK isMounted load create date c).
Proof.
  intros Hk. unfold initializeSDK.
  destruct (isInitialized (state c) || isInitializing (state c)) eqn:Hguard;
    [done|].
  apply orb_false_iff in Hguard as [Hinit _].
  pose proof (kept_ui c (setIsInitializing true (state c)) eq_refl Hk)
    as (Hc1 & _ & Ht1).
  cbn [leapLiquidAI sdk] in Hc1, Ht1.
  change (sdk (update (setIsInitializing true) c))
    with (LeapSDKWrapper.with_ui (setIsInitializing true (state c)) (sdk c)).
  change (leapLiquidAI (update (setIsInitializing true) c))
    with (leapLiquidAI c).
  pose proof (initialize_consistent (Some "/data/local/tmp/leap/model.bundle")
                load _ _ Hc1) as Hc2.
  pose proof (service_initialize_shape
                (Some "/data/local/tmp/leap/model.bundle") load
                (leapLiquidAI c)
                (LeapSDKWrapper.with_ui (setIsInitializing true (state c))
                   (sdk c))) as (He2 & Ha2 & Hu2 & Hr2).
  destruct (LeapLiquidAIService.initialize _ load _ _) as [[s2 w2] r2].
  cbn [fst snd] in *.
  assert (Ht2 : tame w2) by (by apply (tame_ext _ w2) in Ht1).
  assert (Hbase : forall s3 w3,
    LeapLiquidAIService.consistent (s3, w3) -> tame w3 ->
    isInitialized (LeapSDKWrapper.ui w3) = false ->
    kept {| leapLiquidAI := s3; sdk := w3 |}).
  { intros s3 w3 Hc3 Ht3 Hi3. split; [done|split; [|done]].
    unfold gated, state. simpl. by rewrite Hi3. }
  assert (Hi2 : isInitialized (LeapSDKWrapper.ui w2) = false)
    by (rewrite Hu2; exact Hinit).
  destruct r2 as [[]|msg];
    [|destruct isMounted; [|by apply Hbase];
      apply update_kept; [done|]; apply update_kept; [done|];
      by apply Hbase].
  pose proof (createConversation_consistent create _ _ Hc2) as Hc3.
  pose proof (service_createConversation_shape create s2 w2)
    as (He3 & Ha3 & Hu3 & Hr3).
  destruct (LeapLiquidAIService.createConversation create s2 w2)
    as [[s3 w3] r3].
  cbn [fst snd] in *.
  assert (Ht3 : tame w3) by (by apply (tame_ext _ w3) in Ht2).
  assert (Hi3 : isInitialized (LeapSDKWrapper.ui w3) = false)
    by (by rewrite Hu3).
  destruct r3 as [[]|msg];
    [|destruct isMounted; [|by apply Hbase];
      apply update_kept; [done|]; apply update_kept; [done|];
      by apply Hbase].
  destruct (Hr3 tt eq_refl) as [Hs3 Hcc3].
  destruct isMounted.
  - split; [|split].
    + by apply (consistent_ext _ w3).
    + by intros _.
    + exact Ht3.
  - split; [done|split; [|done]]. unfold gated, state. simpl.
    by rewrite Hi3.
Qed.

Lemma run_kept date0 acts : kept (run date0 acts).
Proof.
  unfold run. induction acts as [|a acts IH] using rev_ind.
  - split; [|split].
    + unfold LeapLiquidAIService.consistent. simpl.
      repeat split; try done; by intros [? ?].
    + by intros ?.
    + by split.
  - rewrite foldl_snoc. destruct a as [im load create date|v|clock|i s].
    + by apply initializeSDK_kept.
    + by apply type_kept.
    + by apply handleSend_kept.
    + by apply step_kept.
Qed.

End ScreenRuns.

(** X12. When the load or the conversation creation fails on mount, the
    screen shows the single not-available message with the error, is
    neither initialized nor initializing, and pressing send does nothing
    whatever is typed: no conversation exists in the bridge. *)
Theorem failed_initialization_disables_sending
    (date0 date : N) (load : Vendor.LoadResult)
    (create : Vendor.CreateResult) (v : string) (clock : ChatScreen.Clock) :
  ChatScreen.failing load create ->
  let c := ChatScreen.initializeSDK true load create date
             (ChatScreen.mount date0) in
  ChatScreen.isInitialized (ChatScreen.state c) = false /\
  ChatScreen.isInitializing (ChatScreen.state c) = false /\
  (exists errorMessage,
     errorMessage <> "" /\
     ChatScreen.messages (ChatScreen.state c)
     = [ChatScreen.notAvailable errorMessage date]) /\
  LeapSDKModule.currentConversation
    (LeapSDKWrapper.LeapSDK (ChatScreen.sdk c)) = None /\
  ChatScreen.handleSend clock (ChatScreen.type v c) = ChatScreen.type v c.
Proof.
  intros Hf c.
  assert (Hi : ChatScreen.isInitialized (ChatScreen.state c) = false)
    by (unfold c; by destruct load, create).
  split; [exact Hi|]. split; [|split; [|split]].
  - unfold c. by destruct load, create.
  - unfold c. destruct load as [runner|msg|msg];
      [destruct create as [conv|msg]; [done|]|..];
      (eexists; split; [|reflexivity]);
      unfold ChatScreen.orElse; by case_decide.
  - unfold c. by destruct load, create.
  - unfold ChatScreen.handleSend, ChatScreen.type, ChatScreen.state in *.
    cbn [ChatScreen.update ChatScreen.sdk LeapSDKWrapper.ui
         LeapSDKWrapper.with_ui ChatScreen.setInputText
         ChatScreen.isLoading ChatScreen.isInitialized].
    rewrite Hi. by rewrite orb_true_r.
Qed.

Lemma failed_initialization_disables_sending_witness :
  let clock := {| ChatScreen.now1 := 1700000000000;
                  ChatScreen.date1 := 1700000000000;
                  ChatScreen.now2 := 1700000000001;
                  ChatScreen.date2 := 1700000000001 |}%N in
  let load := Vendor.LeapModelLoadingException "no such file" in
  let create := Vendor.Created {| Vendor.history := [] |} in
  let c := ChatScreen.initializeSDK true load create 5 (ChatScreen.mount 0) in
  ChatScreen.failing load create /\
  ChatScreen.handleSend clock (ChatScreen.type "Hi" c)
  = ChatScreen.type "Hi" c.
Proof.
  intros clock load create c.
  assert (Hf : ChatScreen.failing load create) by exact I.
  split; [exact Hf|].
  exact (proj2 (proj2 (proj2 (proj2
           (failed_initialization_disables_sending 0 5 load create "Hi"
              clock Hf))))).
Defined.


(** X14. In every state the screen reaches, a press on send that the screen
    accepts starts a generation: the service lets it through and the bridge
    has a conversation, so it cancels its current job and launches a new
    one, in flight, for the trimmed input. *)
Theorem accepted_send_starts_generation
    (date0 : N) (acts : list ChatScreen.Action) (clock : ChatScreen.Clock) :
  let c := ChatScreen.run date0 acts in
  let m := LeapSDKWrapper.LeapSDK (ChatScreen.sdk c) in
  let c' := ChatScreen.handleSend clock c in
  ChatScreen.accepting c ->
  LeapSDKWrapper.LeapSDK (ChatScreen.sdk c')
  = LeapSDKModule.with_jobs m (Some (length (LeapSDKModule.scope m)))
      (LeapSDKModule.cancel (LeapSDKModule.generationJob m)
         (LeapSDKModule.scope m)
       ++ [LeapSDKModule.mkJob
             (ChatScreen.trim (ChatScreen.inputText (ChatScreen.state c)))
             (LeapSDKWrapper.nextPromise (ChatScreen.sdk c)) ""
             LeapSDKModule.Active]) /\
  ChatScreen.isLoading (ChatScreen.state c') = true.
Proof.
  intros c m c' (Hv & Hl & Hi).
  destruct (run_kept date0 acts) as ((_ & H2 & _) & Hg & _). fold c in H2, Hg.
  destruct (Hg Hi) as [Hsi Hsc]. simpl in H2.
  destruct (proj1 H2 Hsc) as [conv Hconv].
  unfold c', ChatScreen.handleSend. unfold ChatScreen.state in *.
  rewrite Hl, Hi, bool_decide_eq_false_2 by done. cbn [orb negb].
  unfold LeapLiquidAIService.sendMessage. cbn [ChatScreen.leapLiquidAI
    ChatScreen.update]. rewrite Hsi, Hsc. cbn [negb].
  unfold LeapSDKWrapper.generateResponse, LeapSDKModule.generateResponse.
  cbn. rewrite Hconv. cbn. split; [|done]. fold m. do 2 f_equal.
  unfold LeapSDKModule.cancel.
  destruct (LeapSDKModule.generationJob m); by rewrite ?length_alter.
Qed.

Lemma accepted_send_starts_generation_witness :
  let clock := {| ChatScreen.now1 := 1700000000000;
                  ChatScreen.date1 := 1700000000000;
                  ChatScreen.now2 := 1700000000001;
                  ChatScreen.date2 := 1700000000001 |}%N in
  let acts := [ ChatScreen.Mounted true
                  (Vendor.Loaded {| Vendor.bundle := "m" |})
                  (Vendor.Created {| Vendor.history := [] |}) 5;
                ChatScreen.Typed " Hi " ] in
  ChatScreen.accepting (ChatScreen.run 0 acts) /\
  LeapSDKModule.scope
    (LeapSDKWrapper.LeapSDK
       (ChatScreen.sdk
          (ChatScreen.handleSend clock (ChatScreen.run 0 acts))))
  = [LeapSDKModule.mkJob "Hi" 0 "" LeapSDKModule.Active].
Proof.
  intros clock acts.
  assert (Ha : ChatScreen.accepting (ChatScreen.run 0 acts))
    by (split; [vm_compute; discriminate|by split]).
  split; [exact Ha|].
  exact (f_equal LeapSDKModule.scope
           (proj1 (accepted_send_starts_generation 0 acts clock Ha))).
Defined.
